(** * CRC-32C with hardware dispatch: a shallow embedding of [crc32c.c]

    The development follows the C file top to bottom: fixed-width integers
    and memory, the bit-serial software engine, the chunked engine built on
    the x86 [CRC32] instruction, and the process-wide dispatch state with
    its public operations. *)

From Stdlib Require Import ZArith List Bool Lia.
From Stdlib Require Import Strings.String Strings.Byte.
Import ListNotations.
Local Open Scope Z_scope.

(** ** Fixed-width unsigned integers

    A [uintN_t] is a [Z] in [0, 2^N); a conversion to the type reduces
    modulo [2^N]. *)

Definition uint8 (x : Z) : Z := x mod 2 ^ 8.
Definition uint16 (x : Z) : Z := x mod 2 ^ 16.
Definition uint32 (x : Z) : Z := x mod 2 ^ 32.
Definition uint64 (x : Z) : Z := x mod 2 ^ 64.

(** ** Memory

    A pointer is an address, memory maps every address to a byte.
    [memcpy(&v, s, n)] into an integer of [n] bytes reads them in
    little-endian order, the byte order of the x86 targets on which the
    instruction-based engine is compiled. *)

Definition memory : Type := nat -> byte.

Definition load (m : memory) (s : nat) : Z := Z.of_N (Byte.to_N (m s)).

Fixpoint memcpy (m : memory) (s : nat) (n : nat) : Z :=
  match n with
  | O => 0
  | S n' => load m s + 2 ^ 8 * memcpy m (S s) n'
  end.

(** The bytes of a list laid out in memory from address 0 on. *)
Definition memory_of (bs : list byte) : memory := fun i => nth i bs x00.

(** The [len] bytes a call [(src, len)] designates. *)
Definition buffer (m : memory) (src len : nat) : list byte :=
  map m (seq src len).

(** ** The software engine *)

(** [#define POLY 0x82f63b78] *)
Definition POLY : Z := 0x82f63b78.

(** One round of the inner loop: [h = h & 1 ? (h >> 1) ^ POLY : h >> 1]. *)
Definition sw_round (h : Z) : Z :=
  if negb (Z.land h 1 =? 0) then Z.lxor (Z.shiftr h 1) POLY else Z.shiftr h 1.

(** [for (int k = 0; k < 8; k++) ...], with [rounds] iterations left. *)
Fixpoint sw_for (rounds : nat) (h : Z) : Z :=
  match rounds with
  | O => h
  | S rounds' => sw_for rounds' (sw_round h)
  end.

(** [while (len--) { h ^= *s++; for ... }] *)
Fixpoint sw_while (m : memory) (s len : nat) (h : Z) : Z :=
  match len with
  | O => h
  | S len' =>
      let h := Z.lxor h (load m s) in
      let h := sw_for 8 h in
      sw_while m (S s) len' h
  end.

Definition crc32c_sw (m : memory) (src len : nat) : Z :=
  let h := uint32 (Z.lnot 0) in
  let h := sw_while m src len h in
  uint32 (Z.lnot h).

(** ** The bit-serial algorithm as the specification words it

    Reversed polynomial [0x82F63B78], a 32-bit register starting at
    all-ones, eight shift-and-XOR steps for each byte, and a final bitwise
    NOT of the register. *)

Module Reference.

Definition polynomial : Z := 0x82F63B78.

Definition all_ones : Z := Z.ones 32.

Definition shift_and_xor (reg : Z) : Z :=
  if Z.odd reg then Z.lxor (reg / 2) polynomial else reg / 2.

Definition absorb (reg : Z) (b : byte) : Z :=
  Nat.iter 8 shift_and_xor (Z.lxor reg (Z.of_N (Byte.to_N b))).

Definition bitwise_not (reg : Z) : Z := all_ones - reg.

Definition crc32c (bytes : list byte) : Z :=
  bitwise_not (fold_left absorb bytes all_ones).

End Reference.

(** ** The x86 [CRC32] instruction

    The intrinsics [_mm_crc32_u8/u16/u32/u64] are not defined in the C
    file: they are the compiler's names for the SSE4.2 instruction
    [CRC32 r, r/m]. Its documented operation (Intel SDM, "CRC32 -
    Accumulate CRC32 Value") works on bit-reflected operands and takes a
    polynomial remainder modulo [11EDC6F41H]; the definitions below follow
    that description step by step. *)

Module X86.

Definition POLYNOMIAL : Z := 0x11EDC6F41.

(** [BIT_REFLECT]: bit [i] of the low [n] bits moves to bit [n-1-i]. *)
Fixpoint BIT_REFLECT (n : nat) (x : Z) : Z :=
  match n with
  | O => 0
  | S n' =>
      Z.lxor (Z.shiftl (Z.b2z (Z.testbit x 0)) (Z.of_nat n'))
             (BIT_REFLECT n' (Z.shiftr x 1))
  end.

(** [MOD2]: remainder of the polynomial division over GF(2), by long
    division from bit [32 + n - 1] down to bit [32]. *)
Fixpoint MOD2 (n : nat) (x : Z) : Z :=
  match n with
  | O => x
  | S n' =>
      MOD2 n' (if Z.testbit x (Z.of_nat (32 + n'))
               then Z.lxor x (Z.shiftl POLYNOMIAL (Z.of_nat n'))
               else x)
  end.

(** [CRC32 dest, src] with a source operand of [w] bits. *)
Definition CRC32 (w : nat) (dest src : Z) : Z :=
  let TEMP1 := BIT_REFLECT w src in
  let TEMP2 := BIT_REFLECT 32 dest in
  let TEMP3 := Z.shiftl TEMP1 32 in
  let TEMP4 := Z.shiftl TEMP2 (Z.of_nat w) in
  let TEMP5 := Z.lxor TEMP3 TEMP4 in
  let TEMP6 := MOD2 w TEMP5 in
  BIT_REFLECT 32 TEMP6.

End X86.

(** ** The processor and the build target

    What the C file takes from outside: the architecture it is compiled
    for, whether the CPU reports SSE4.2, what its [CRC32] instruction
    returns, and the process environment. The instruction is a field so
    that a CPU that miscomputes can be described; [intel] is the CPU that
    follows the manual. *)

Inductive arch : Type := X86_64 | I386 | Other_arch.

Record processor : Type := {
  sse4_2 : bool;
  crc32_insn : nat -> Z -> Z -> Z
}.

Definition intel : processor :=
  {| sse4_2 := true; crc32_insn := X86.CRC32 |}.

Record platform : Type := {
  target : arch;
  cpu : processor;
  getenv_CRC32C_FORCE : option string
}.

(** [#define X86_ONLY] *)
Definition X86_ONLY (t : arch) : bool :=
  match t with
  | X86_64 | I386 => true
  | Other_arch => false
  end.

(** The intrinsics, with their C return types. *)
Definition _mm_crc32_u8 (c : processor) (crc v : Z) : Z :=
  uint32 (crc32_insn c 8 (uint32 crc) (uint8 v)).
Definition _mm_crc32_u16 (c : processor) (crc v : Z) : Z :=
  uint32 (crc32_insn c 16 (uint32 crc) (uint16 v)).
Definition _mm_crc32_u32 (c : processor) (crc v : Z) : Z :=
  uint32 (crc32_insn c 32 (uint32 crc) (uint32 v)).
Definition _mm_crc32_u64 (c : processor) (crc v : Z) : Z :=
  uint64 (uint32 (crc32_insn c 64 (uint32 crc) (uint64 v))).

(** ** The hardware engine

    [crc32c_hw_body] is compiled on the x86 builds only; the 8-byte loop is
    inside [#ifdef __x86_64__], so the 32-bit build goes straight to the
    4-byte step. On a build without the function nothing calls it. *)

(** [while (len > 7) { memcpy(&v, s, 8); hh = _mm_crc32_u64(hh, v);
    s += 8; len -= 8; }]: [len > 7] holds exactly when [len] is
    [8 + len']. The loop returns the pointer, the length and the register
    it leaves. *)
Fixpoint hw_while (c : processor) (m : memory) (s len : nat) (hh : Z)
  : nat * nat * Z :=
  match len with
  | S (S (S (S (S (S (S (S len'))))))) =>
      let v := uint64 (memcpy m s 8) in
      let hh := _mm_crc32_u64 c hh v in
      hw_while c m (s + 8) len' hh
  | _ => (s, len, hh)
  end.

Definition crc32c_hw_body (t : arch) (c : processor) (m : memory)
  (src len : nat) : Z :=
  let s := src in
  let hh := uint64 (uint32 (Z.lnot 0)) in
  let '(s, len, h) :=
    match t with
    | X86_64 =>
        let '(s, len, hh) := hw_while c m s len hh in
        (s, len, uint32 hh)
    | _ => (s, len, uint32 hh)
    end in
  let '(s, len, h) :=
    if (3 <? len)%nat
    then let v := uint32 (memcpy m s 4) in
         ((s + 4)%nat, (len - 4)%nat, _mm_crc32_u32 c h v)
    else (s, len, h) in
  let '(s, len, h) :=
    if (1 <? len)%nat
    then let v := uint16 (memcpy m s 2) in
         ((s + 2)%nat, (len - 2)%nat, _mm_crc32_u16 c h v)
    else (s, len, h) in
  let h :=
    if (0 <? len)%nat
    then let v := uint8 (memcpy m s 1) in
         _mm_crc32_u8 c h v
    else h in
  uint32 (Z.lnot h).

Definition crc32c_hw (p : platform) (m : memory) (src len : nat) : Z :=
  if X86_ONLY (target p)
  then crc32c_hw_body (target p) (cpu p) m src len
  else crc32c_sw m src len.

(** ** Dispatch state *)

(** [typedef enum { CRC32C_IMPL_AUTO = 0, CRC32C_IMPL_HW, CRC32C_IMPL_SW }] *)
Inductive crc32c_impl : Type :=
  | CRC32C_IMPL_AUTO
  | CRC32C_IMPL_HW
  | CRC32C_IMPL_SW.

(** The three file-scope variables: the once-guard (has the initializer
    run), the [int] force flag and the selected implementation. *)
Record dispatch : Type := {
  g_crc32c_once : bool;
  g_force_sw : Z;
  g_impl : crc32c_impl
}.

(** The values the variables have when the process starts. *)
Definition process_start : dispatch :=
  {| g_crc32c_once := false; g_force_sw := 0; g_impl := CRC32C_IMPL_SW |}.

Definition set_force_sw (v : Z) (d : dispatch) : dispatch :=
  {| g_crc32c_once := g_crc32c_once d; g_force_sw := v; g_impl := g_impl d |}.

Definition set_impl (i : crc32c_impl) (d : dispatch) : dispatch :=
  {| g_crc32c_once := g_crc32c_once d; g_force_sw := g_force_sw d;
     g_impl := i |}.

(** [pthread_once(&g_crc32c_once, init)]: the first call runs [init] and
    marks the guard, later calls do nothing. *)
Definition pthread_once (init : dispatch -> dispatch) (d : dispatch)
  : dispatch :=
  if g_crc32c_once d then d
  else let d := init d in
       {| g_crc32c_once := true; g_force_sw := g_force_sw d;
          g_impl := g_impl d |}.

(** [cpu_has_hw_crc]: the [int] it returns is only used as a truth value. *)
Definition cpu_has_hw_crc (p : platform) : bool :=
  if X86_ONLY (target p) then sse4_2 (cpu p) else false.

(** A C condition on an [int]: true when the value is not zero. *)
Definition truth (v : Z) : bool := negb (v =? 0).

Definition crc32c_init (p : platform) (d : dispatch) : dispatch :=
  if truth (g_force_sw d) then set_impl CRC32C_IMPL_SW d
  else
    let d :=
      match getenv_CRC32C_FORCE p with
      | Some env =>
          if String.eqb env "sw" then set_force_sw 1 d
          else if String.eqb env "hw" then
            let d := set_force_sw 0 d in
            if negb (cpu_has_hw_crc p) then set_force_sw 1 d else d
          else d
      | None => d
      end in
    if negb (truth (g_force_sw d)) && cpu_has_hw_crc p
    then set_impl CRC32C_IMPL_HW d
    else set_impl CRC32C_IMPL_SW d.

(** ** Public operations

    Each operation takes the dispatch state and returns its result with the
    state it leaves. *)

Definition crc32c_impl_name (p : platform) (d : dispatch)
  : string * dispatch :=
  let d := pthread_once (crc32c_init p) d in
  (match g_impl d with
   | CRC32C_IMPL_HW => "hw"%string
   | _ => "sw"%string
   end, d).

Definition crc32c_hw_available (p : platform) : bool := cpu_has_hw_crc p.

Definition crc32c_force_software (p : platform) (d : dispatch) : dispatch :=
  let d := set_force_sw 1 d in
  let d := pthread_once (crc32c_init p) d in
  set_impl CRC32C_IMPL_SW d.

Definition k_vec : list byte := list_byte_of_string "123456789".

(** [strlen] of a string held in a list with no NUL byte inside. *)
Definition strlen (s : list byte) : nat := List.length s.

(** The byte a [uint8_t] value is stored as. *)
Definition byte_of_Z (x : Z) : byte :=
  match Byte.of_N (Z.to_N (uint8 x)) with
  | Some b => b
  | None => x00
  end.

(** [for (i = 0; i < sizeof(pattern); i++) pattern[i] = (uint8_t)(i*3+1);] *)
Definition pattern : list byte :=
  map (fun i => byte_of_Z (Z.of_nat i * 3 + 1)) (seq 0 512).

Definition offsets : list nat := [0; 1; 2; 3; 4; 7; 8; 15; 31; 63]%nat.
Definition lengths : list nat :=
  [0; 1; 2; 3; 4; 7; 8; 15; 16; 31; 32; 63; 64; 255]%nat.

(** The body of the inner loop of the self-check, for one offset and one
    length; it returns the updated failure count. *)
Definition selfcheck_slice (t : arch) (c : processor) (off len : nat)
  (failures : Z) : Z :=
  if (List.length pattern <? off + len)%nat then failures
  else
    let hw_v := crc32c_hw_body t c (memory_of pattern) off len in
    let sw_v := crc32c_sw (memory_of pattern) off len in
    if negb (hw_v =? sw_v) then failures + 1 else failures.

(** The two nested loops over [offsets] and [lengths]. *)
Definition selfcheck_matrix (t : arch) (c : processor) (failures : Z) : Z :=
  fold_left
    (fun failures off =>
       fold_left (fun failures len => selfcheck_slice t c off len failures)
                 lengths failures)
    offsets failures.

Definition crc32c_selfcheck (p : platform) (d : dispatch) : Z * dispatch :=
  if X86_ONLY (target p) then
    let d := pthread_once (crc32c_init p) d in
    match g_impl d with
    | CRC32C_IMPL_HW =>
        let failures := 0 in
        let hw := crc32c_hw_body (target p) (cpu p) (memory_of k_vec) 0
                                 (strlen k_vec) in
        let sw := crc32c_sw (memory_of k_vec) 0 (strlen k_vec) in
        let failures := if negb (hw =? sw) then failures + 1 else failures in
        let failures := selfcheck_matrix (target p) (cpu p) failures in
        if truth failures then (-1, crc32c_force_software p d)
        else (0, d)
    | _ => (0, d)
    end
  else (0, d).

Definition crc32c (p : platform) (d : dispatch) (m : memory) (src len : nat)
  : Z * dispatch :=
  let d := pthread_once (crc32c_init p) d in
  match g_impl d with
  | CRC32C_IMPL_HW =>
      if X86_ONLY (target p)
      then (crc32c_hw_body (target p) (cpu p) m src len, d)
      else (crc32c_sw m src len, d)
  | _ => (crc32c_sw m src len, d)
  end.

(** ** Sequences of public operations *)

Inductive operation : Type :=
  | Impl_name
  | Hw_available
  | Force_software
  | Selfcheck
  | Checksum (m : memory) (src len : nat).

Inductive outcome : Type :=
  | Name (s : string)
  | Available (b : bool)
  | Done
  | Status (z : Z)
  | Value (z : Z).

Definition call (p : platform) (o : operation) (d : dispatch)
  : outcome * dispatch :=
  match o with
  | Impl_name => let '(s, d) := crc32c_impl_name p d in (Name s, d)
  | Hw_available => (Available (crc32c_hw_available p), d)
  | Force_software => (Done, crc32c_force_software p d)
  | Selfcheck => let '(z, d) := crc32c_selfcheck p d in (Status z, d)
  | Checksum m src len => let '(z, d) := crc32c p d m src len in (Value z, d)
  end.

(** The outcomes of a sequence of calls, and the state after the last. *)
Fixpoint run (p : platform) (os : list operation) (d : dispatch)
  : list outcome * dispatch :=
  match os with
  | [] => ([], d)
  | o :: os' =>
      let '(r, d) := call p o d in
      let '(rs, d) := run p os' d in
      (r :: rs, d)
  end.

(** ** Definitions used by the statements and the proofs *)

(** A value that fits in [n] bits. *)
Definition fits (n : Z) (x : Z) : Prop := 0 <= x < 2 ^ n.

(** A map that commutes with [Z.lxor]. *)
Definition xor_linear (f : Z -> Z) : Prop :=
  forall a b, f (Z.lxor a b) = Z.lxor (f a) (f b).

(** The software rounds over the [k] low bytes of an integer [v]. *)
Fixpoint sw_bytes (k : nat) (h v : Z) : Z :=
  match k with
  | O => h
  | S k' => sw_bytes k' (sw_for 8 (Z.lxor h (Z.land v 255))) (Z.shiftr v 8)
  end.

(** The register is the low 32 bits of the packed argument, the operand
    the bits above. *)
Definition packed_insn (k : nat) (x : Z) : Z :=
  X86.CRC32 (8 * k) (Z.land x (Z.ones 32)) (Z.shiftr x 32).

Definition packed_sw (k : nat) (x : Z) : Z :=
  sw_bytes k (Z.land x (Z.ones 32)) (Z.shiftr x 32).

Definition agree_on_basis (k : nat) : bool :=
  forallb (fun i => packed_insn k (2 ^ Z.of_nat i) =? packed_sw k (2 ^ Z.of_nat i))
          (seq 0 (32 + 8 * k)).

Definition follows_manual (c : processor) : Prop :=
  forall w dest src, crc32_insn c w dest src = X86.CRC32 w dest src.

Definition i386_build : platform :=
  {| target := I386; cpu := intel; getenv_CRC32C_FORCE := None |}.

Definition x86_64_build : platform :=
  {| target := X86_64; cpu := intel; getenv_CRC32C_FORCE := None |}.

Definition eight_bytes : list byte := list_byte_of_string "12345678".

(** A process that has initialized and whose selector is Software. *)
Definition settled_on_software (d : dispatch) : Prop :=
  g_crc32c_once d = true /\ g_impl d = CRC32C_IMPL_SW.

(** From state [d0] on, the sequence [os] ends with selector Software and
    name "sw", and reports no other name on the way. *)
Definition stays_software (p : platform) (os : list operation)
  (d0 : dispatch) : Prop :=
  g_impl (snd (run p os d0)) = CRC32C_IMPL_SW
  /\ fst (crc32c_impl_name p (snd (run p os d0))) = "sw"%string
  /\ (forall s, In (Name s) (fst (run p os d0)) -> s = "sw"%string).

(** A second buffer, equal to [eight_bytes] but for its last byte. *)
Definition eight_bytes' : list byte := list_byte_of_string "12345679".

(** Counting loops: a loop that adds a weight per element adds their sum. *)
Fixpoint total {A : Type} (w : A -> Z) (l : list A) : Z :=
  match l with
  | [] => 0
  | a :: l' => w a + total w l'
  end.

(** Whether the slice at [off] of length [len] is compared and found to
    differ. *)
Definition slice_differs (t : arch) (c : processor) (off len : nat) : bool :=
  negb (List.length pattern <? off + len)%nat
  && negb (crc32c_hw_body t c (memory_of pattern) off len
           =? crc32c_sw (memory_of pattern) off len).

(** The engines disagree on the known vector or on a slice of the pattern
    at one of the offsets and one of the lengths that fits in its 512
    bytes. *)
Definition engines_disagree (p : platform) : Prop :=
  crc32c_hw p (memory_of k_vec) 0 9 <> crc32c_sw (memory_of k_vec) 0 9
  \/ exists off len : nat,
       In off [0; 1; 2; 3; 4; 7; 8; 15; 31; 63]%nat
       /\ In len [0; 1; 2; 3; 4; 7; 8; 15; 16; 31; 32; 63; 64; 255]%nat
       /\ (off + len <= 512)%nat
       /\ crc32c_hw p (memory_of pattern) off len
          <> crc32c_sw (memory_of pattern) off len.

(** The failure count the self-check ends with. *)
Definition selfcheck_failures (t : arch) (c : processor) : Z :=
  selfcheck_matrix t c
    (if negb (crc32c_hw_body t c (memory_of k_vec) 0 (strlen k_vec)
              =? crc32c_sw (memory_of k_vec) 0 (strlen k_vec))
     then 0 + 1 else 0).

(** ** The test program

    [main] of the test file: the known vector, the offset and length
    coverage over a 1024-byte pattern, 100 random buffers and the
    self-check. The buffers the random engine draws are an argument, [rnd i]
    being the buffer of iteration [i]; what the program prints is left out,
    its exit status is the result. *)

Module Test.

(** [MaybeReportMismatch(label, got, want, len, &failures)]: the counter
    after the call. *)
Definition MaybeReportMismatch (got want : Z) (failures : Z) : Z :=
  if got =? want then failures else failures + 1.

Definition offsets : list nat := [0; 1; 2; 3; 4; 7; 8; 15; 31; 63]%nat.

Definition lengths : list nat :=
  [0; 1; 2; 3; 4; 7; 8; 15; 16; 31; 32; 63; 64; 255; 256; 511]%nat.

(** [pattern[i] = (unsigned char)(i * 5 + 1)] for [i < 1024]. *)
Definition pattern : list byte :=
  map (fun i => byte_of_Z (Z.of_nat i * 5 + 1)) (seq 0 1024).

(** The comparisons made on one buffer [(m, src, len)], in the coverage
    loop and in the random loop alike: the dispatcher against the software
    engine, then, if the hardware is reported available, the hardware engine
    against the software engine. *)
Definition compare_engines (p : platform) (m : memory) (src len : nat)
  (st : Z * dispatch) : Z * dispatch :=
  let '(failures, d) := st in
  let sw := crc32c_sw m src len in
  let '(disp, d) := crc32c p d m src len in
  let failures := MaybeReportMismatch disp sw failures in
  let failures :=
    if crc32c_hw_available p
    then let hw := crc32c_hw p m src len in
         MaybeReportMismatch hw sw failures
    else failures in
  (failures, d).

(** The body of the coverage loops for one offset and one length. *)
Definition coverage_step (p : platform) (off len : nat) (st : Z * dispatch)
  : Z * dispatch :=
  if (List.length pattern <? off + len)%nat then st
  else compare_engines p (memory_of pattern) off len st.

(** The body of the random loop for the buffer drawn. *)
Definition random_step (p : platform) (buf : list byte) (st : Z * dispatch)
  : Z * dispatch :=
  compare_engines p (memory_of buf) 0 (List.length buf) st.

Definition main (p : platform) (rnd : nat -> list byte) : Z :=
  let d := process_start in
  let failures := 0 in
  let vec_sw := crc32c_sw (memory_of k_vec) 0 (strlen k_vec) in
  let failures := MaybeReportMismatch vec_sw 0xe3069283 failures in
  let '(vec_dispatch, d) := crc32c p d (memory_of k_vec) 0 (strlen k_vec) in
  let failures := MaybeReportMismatch vec_dispatch vec_sw failures in
  let failures :=
    if crc32c_hw_available p
    then let vec_hw := crc32c_hw p (memory_of k_vec) 0 (strlen k_vec) in
         MaybeReportMismatch vec_hw vec_sw failures
    else failures in
  let '(failures, d) :=
    fold_left
      (fun st off =>
         fold_left (fun st len => coverage_step p off len st) lengths st)
      offsets (failures, d) in
  let '(failures, d) :=
    fold_left (fun st i => random_step p (rnd i) st) (seq 0 100)
              (failures, d) in
  let '(status, d) := crc32c_selfcheck p d in
  let failures := if negb (status =? 0) then failures + 1 else failures in
  if failures =? 0 then 0 else 1.

End Test.

(** ** Definitions used by the further properties *)

(** Two memories hold the same bytes at the [len] addresses from [src]. *)
Definition agree (m1 m2 : memory) (src len : nat) : Prop :=
  forall i, (src <= i < src + len)%nat -> m1 i = m2 i.

(** What holds of the dispatch variables in every state a process can be
    in: before initialization they have their start values; afterwards the
    selector is Software with the flag 0 or 1, or Hardware with the flag
    clear, the detector true and no "sw" setting. *)
Definition consistent (p : platform) (d : dispatch) : Prop :=
  if g_crc32c_once d
  then (g_impl d = CRC32C_IMPL_SW /\ (g_force_sw d = 0 \/ g_force_sw d = 1))
       \/ (g_impl d = CRC32C_IMPL_HW /\ g_force_sw d = 0
           /\ cpu_has_hw_crc p = true
           /\ getenv_CRC32C_FORCE p <> Some "sw"%string)
  else d = process_start.


(** An initialized process whose selector is not Hardware. *)
Definition off_hardware (d : dispatch) : Prop :=
  g_crc32c_once d = true /\ g_impl d <> CRC32C_IMPL_HW.

(** The platform [p] with another value of the environment variable. *)
Definition with_env (p : platform) (e : option string) : platform :=
  {| target := target p; cpu := cpu p; getenv_CRC32C_FORCE := e |}.

(** The operations that only read the dispatch state once it is
    initialized. *)
Definition reads_only (o : operation) : bool :=
  match o with
  | Impl_name | Hw_available | Checksum _ _ _ => true
  | Force_software | Selfcheck => false
  end.

(** "123456789" followed by its checksum 0xE3069283, low byte first. *)
Definition framed_vector : list byte :=
  k_vec ++ [x83; x92; x06; xe3].

(** * Proofs *)

(** ** Registers stay within 32 bits *)

Lemma fits_lxor n a b : 0 < n -> fits n a -> fits n b -> fits n (Z.lxor a b).
Proof.
  unfold fits. intros Hn [Ha Ha'] [Hb Hb'].
  assert (H0 : 0 <= Z.lxor a b) by (apply Z.lxor_nonneg; tauto).
  split; [exact H0|].
  destruct (Z.eq_dec (Z.lxor a b) 0) as [->|Hne].
  - apply Z.pow_pos_nonneg; lia.
  - apply Z.log2_lt_pow2; [lia|].
    eapply Z.le_lt_trans; [apply Z.log2_lxor; assumption|].
    apply Z.max_lub_lt.
    + destruct (Z.eq_dec a 0) as [->|]; [simpl|apply Z.log2_lt_pow2]; lia.
    + destruct (Z.eq_dec b 0) as [->|]; [simpl|apply Z.log2_lt_pow2]; lia.
Qed.

Lemma fits_load m s : fits 8 (load m s).
Proof.
  unfold fits, load. pose proof (Byte.to_N_bounded (m s)). lia.
Qed.

Lemma fits_weaken n n' x : n <= n' -> fits n x -> fits n' x.
Proof.
  unfold fits. intros Hle [H0 H1]. split; [exact H0|].
  eapply Z.lt_le_trans; [exact H1|].
  apply Z.pow_le_mono_r; lia.
Qed.

Lemma fits_halve x : fits 32 x -> fits 32 (Z.shiftr x 1).
Proof.
  unfold fits. intros [H0 H1]. rewrite Z.shiftr_div_pow2 by lia.
  change (2 ^ 1) with 2. split.
  - apply Z.div_pos; lia.
  - apply Z.div_lt_upper_bound; lia.
Qed.

Lemma fits_sw_round h : fits 32 h -> fits 32 (sw_round h).
Proof.
  intros H. unfold sw_round.
  destruct (negb (Z.land h 1 =? 0)).
  - apply fits_lxor; [lia|apply fits_halve; exact H|].
    unfold fits, POLY. lia.
  - apply fits_halve; exact H.
Qed.

Lemma fits_sw_for k h : fits 32 h -> fits 32 (sw_for k h).
Proof.
  revert h. induction k as [|k IH]; intros h H; simpl.
  - exact H.
  - apply IH, fits_sw_round, H.
Qed.

Lemma fits_sw_while m len : forall s h,
  fits 32 h -> fits 32 (sw_while m s len h).
Proof.
  induction len as [|len IH]; intros s h H; cbn [sw_while].
  - exact H.
  - apply IH, fits_sw_for, fits_lxor; [lia|exact H|].
    apply (fits_weaken 8); [lia|apply fits_load].
Qed.

Lemma uint32_fits x : fits 32 x -> uint32 x = x.
Proof. unfold fits, uint32. intros H. apply Z.mod_small, H. Qed.

Lemma fits_uint32 x : fits 32 (uint32 x).
Proof. unfold fits, uint32. apply Z.mod_pos_bound. lia. Qed.

Lemma uint32_lnot h : fits 32 h -> uint32 (Z.lnot h) = Z.ones 32 - h.
Proof.
  unfold fits, uint32. intros H.
  replace (Z.lnot h) with (-h - 1) by (unfold Z.lnot; lia).
  rewrite Z.ones_equiv.
  symmetry. apply Z.mod_unique_pos with (q := -1); lia.
Qed.

(** ** The software engine is the bit-serial algorithm *)

Lemma sw_round_reference h : sw_round h = Reference.shift_and_xor h.
Proof.
  unfold sw_round, Reference.shift_and_xor, Reference.polynomial, POLY.
  change 1 with (Z.ones 1) at 1. rewrite Z.land_ones by lia.
  change (2 ^ 1) with 2.
  rewrite !Z.shiftr_div_pow2 by lia. change (2 ^ 1) with 2.
  rewrite Zodd_mod.
  pose proof (Z.mod_pos_bound h 2 ltac:(lia)) as Hb.
  destruct (Z.eqb_spec (h mod 2) 0) as [E|E]; simpl.
  - rewrite E. reflexivity.
  - replace (h mod 2) with 1 by lia. reflexivity.
Qed.

Lemma sw_for_iter k h : sw_for k h = Nat.iter k Reference.shift_and_xor h.
Proof.
  revert h. induction k as [|k IH]; intros h.
  - reflexivity.
  - cbn [sw_for]. rewrite IH, sw_round_reference.
    symmetry. apply Nat.iter_succ_r.
Qed.

Lemma sw_while_fold m len : forall s h,
  sw_while m s len h = fold_left Reference.absorb (buffer m s len) h.
Proof.
  unfold buffer.
  induction len as [|len IH]; intros s h.
  - reflexivity.
  - cbn [sw_while seq map fold_left]. rewrite IH. f_equal.
    unfold Reference.absorb, load. apply sw_for_iter.
Qed.

(** C1. For every memory, pointer and length, [crc32c_sw] returns what the
    bit-serial algorithm of the specification (reversed polynomial
    0x82F63B78, all-ones initial register, eight shift-and-XOR steps per
    byte, final bitwise NOT) returns on the [len] bytes at [src]. *)
Theorem crc32c_sw_is_bit_serial (m : memory) (src len : nat) :
  crc32c_sw m src len = Reference.crc32c (buffer m src len).
Proof.
  unfold crc32c_sw, Reference.crc32c, Reference.bitwise_not,
    Reference.all_ones.
  change (uint32 (Z.lnot 0)) with (Z.ones 32).
  rewrite uint32_lnot.
  - rewrite sw_while_fold. reflexivity.
  - apply fits_sw_while. unfold fits. rewrite Z.ones_equiv. lia.
Qed.

(** ** XOR-linear maps

    Both the instruction and the software rounds are linear over GF(2):
    they commute with [Z.lxor]. Two linear maps that agree on the powers of
    two below [2^n] agree on every number below [2^n]. *)

Section Linear.

Lemma lxor_interchange a b c d :
  Z.lxor (Z.lxor a b) (Z.lxor c d) = Z.lxor (Z.lxor a c) (Z.lxor b d).
Proof.
  rewrite !Z.lxor_assoc. f_equal.
  rewrite <- !Z.lxor_assoc. f_equal. apply Z.lxor_comm.
Qed.

Lemma xor_linear_id : xor_linear (fun x => x).
Proof. intros a b. reflexivity. Qed.

Lemma xor_linear_compose f g :
  xor_linear f -> xor_linear g -> xor_linear (fun x => f (g x)).
Proof. intros Hf Hg a b. rewrite Hg, Hf. reflexivity. Qed.

Lemma xor_linear_lxor f g :
  xor_linear f -> xor_linear g -> xor_linear (fun x => Z.lxor (f x) (g x)).
Proof. intros Hf Hg a b. rewrite Hf, Hg. apply lxor_interchange. Qed.

Lemma xor_linear_land c : xor_linear (fun x => Z.land x c).
Proof.
  intros a b. apply Z.bits_inj'. intros i _.
  rewrite Z.lxor_spec, !Z.land_spec, Z.lxor_spec.
  destruct (Z.testbit a i), (Z.testbit b i), (Z.testbit c i); reflexivity.
Qed.

Lemma xor_linear_shiftr n : xor_linear (fun x => Z.shiftr x n).
Proof. intros a b. apply Z.shiftr_lxor. Qed.

Lemma xor_linear_shiftl n : xor_linear (fun x => Z.shiftl x n).
Proof. intros a b. apply Z.shiftl_lxor. Qed.

Lemma xor_linear_select i c :
  xor_linear (fun x => if Z.testbit x i then c else 0).
Proof.
  intros a b. rewrite Z.lxor_spec.
  destruct (Z.testbit a i), (Z.testbit b i); cbn [xorb];
    rewrite ?Z.lxor_nilpotent, ?Z.lxor_0_r, ?Z.lxor_0_l; reflexivity.
Qed.

Lemma split_top (n : Z) (x : Z) :
  0 <= n ->
  x = Z.lxor (Z.land x (Z.ones n)) (Z.shiftl (Z.shiftr x n) n).
Proof.
  intros Hn. apply Z.bits_inj'. intros i Hi.
  rewrite Z.lxor_spec, Z.land_spec, Z.testbit_ones_nonneg by lia.
  destruct (Z.ltb_spec i n) as [Hlt|Hge].
  - rewrite Z.shiftl_spec_low by lia.
    rewrite andb_true_r, xorb_false_r. reflexivity.
  - rewrite Z.shiftl_spec by lia. rewrite Z.shiftr_spec by lia.
    rewrite andb_false_r, xorb_false_l. f_equal. lia.
Qed.

Lemma xor_linear_ext (f g : Z -> Z) :
  xor_linear f -> xor_linear g ->
  forall n : nat,
    (forall i : nat, (i < n)%nat -> f (2 ^ Z.of_nat i) = g (2 ^ Z.of_nat i)) ->
    forall x, fits (Z.of_nat n) x -> f x = g x.
Proof.
  intros Hf Hg. induction n as [|n IH]; intros Hb x [H0 H1].
  - change (2 ^ Z.of_nat 0) with 1 in H1.
    replace x with (Z.lxor 0 0) by (rewrite Z.lxor_0_l; lia).
    rewrite Hf, Hg, !Z.lxor_nilpotent. reflexivity.
  - rewrite (split_top (Z.of_nat n) x) by lia.
    rewrite Hf, Hg. f_equal.
    + apply IH; [intros i Hi; apply Hb; lia|].
      rewrite Z.land_ones by lia. apply Z.mod_pos_bound. lia.
    + rewrite Z.shiftr_div_pow2, Z.shiftl_mul_pow2 by lia.
      assert (Hq : 0 <= x / 2 ^ Z.of_nat n < 2).
      { split; [apply Z.div_pos; lia|].
        apply Z.div_lt_upper_bound; [lia|].
        rewrite Nat2Z.inj_succ, Z.pow_succ_r in H1 by lia. lia. }
      assert (Hc : x / 2 ^ Z.of_nat n = 0 \/ x / 2 ^ Z.of_nat n = 1) by lia.
      destruct Hc as [-> | ->].
      * rewrite Z.mul_0_l.
        replace 0 with (Z.lxor 0 0) by apply Z.lxor_0_l.
        rewrite Hf, Hg, !Z.lxor_nilpotent. reflexivity.
      * rewrite Z.mul_1_l. apply Hb. lia.
Qed.

End Linear.

(** ** The instruction absorbs the bytes of its operand, low byte first *)

Lemma sw_round_select h :
  sw_round h = Z.lxor (Z.shiftr h 1) (if Z.testbit h 0 then POLY else 0).
Proof.
  unfold sw_round.
  change 1 with (Z.ones 1) at 1. rewrite Z.land_ones by lia.
  change (2 ^ 1) with 2. rewrite <- Z.bit0_mod.
  destruct (Z.testbit h 0); cbn [Z.b2z Z.eqb negb].
  - reflexivity.
  - rewrite Z.lxor_0_r. reflexivity.
Qed.

Lemma xor_linear_sw_round : xor_linear sw_round.
Proof.
  intros a b. rewrite !sw_round_select.
  apply (xor_linear_lxor (fun x => Z.shiftr x 1)
                         (fun x => if Z.testbit x 0 then POLY else 0)).
  - apply xor_linear_shiftr.
  - apply xor_linear_select.
Qed.

Lemma xor_linear_sw_for k : xor_linear (sw_for k).
Proof.
  induction k as [|k IH]; intros a b; cbn [sw_for].
  - reflexivity.
  - rewrite xor_linear_sw_round. apply IH.
Qed.

Lemma xor_linear_sw_bytes k : forall hf vf,
  xor_linear hf -> xor_linear vf ->
  xor_linear (fun x => sw_bytes k (hf x) (vf x)).
Proof.
  induction k as [|k IH]; intros hf vf Hh Hv; cbn [sw_bytes].
  - exact Hh.
  - apply (IH (fun x => sw_for 8 (Z.lxor (hf x) (Z.land (vf x) 255)))
              (fun x => Z.shiftr (vf x) 8)).
    + apply (xor_linear_compose (sw_for 8)); [apply xor_linear_sw_for|].
      apply xor_linear_lxor; [exact Hh|].
      apply (xor_linear_compose (fun x => Z.land x 255));
        [apply xor_linear_land|exact Hv].
    + apply (xor_linear_compose (fun x => Z.shiftr x 8));
        [apply xor_linear_shiftr|exact Hv].
Qed.

Lemma xor_linear_BIT_REFLECT n : xor_linear (X86.BIT_REFLECT n).
Proof.
  induction n as [|n IH]; intros a b; cbn [X86.BIT_REFLECT].
  - reflexivity.
  - rewrite Z.shiftr_lxor, IH, Z.lxor_spec.
    rewrite <- lxor_interchange. f_equal.
    rewrite <- Z.shiftl_lxor. f_equal.
    destruct (Z.testbit a 0), (Z.testbit b 0); reflexivity.
Qed.

Lemma xor_linear_MOD2 n : xor_linear (X86.MOD2 n).
Proof.
  induction n as [|n IH]; intros a b; cbn [X86.MOD2].
  - reflexivity.
  - rewrite <- IH. f_equal.
    set (i := Z.of_nat (32 + n)).
    set (c := Z.shiftl X86.POLYNOMIAL (Z.of_nat n)).
    assert (E : forall x, (if Z.testbit x i then Z.lxor x c else x)
                          = Z.lxor x (if Z.testbit x i then c else 0)).
    { intros x. destruct (Z.testbit x i); [|rewrite Z.lxor_0_r]; reflexivity. }
    rewrite !E.
    apply (xor_linear_lxor (fun x => x) (fun x => if Z.testbit x i then c else 0)).
    + apply xor_linear_id.
    + apply xor_linear_select.
Qed.

Lemma xor_linear_CRC32 w hf vf :
  xor_linear hf -> xor_linear vf ->
  xor_linear (fun x => X86.CRC32 w (hf x) (vf x)).
Proof.
  intros Hh Hv. unfold X86.CRC32.
  apply (xor_linear_compose (X86.BIT_REFLECT 32)); [apply xor_linear_BIT_REFLECT|].
  apply (xor_linear_compose (X86.MOD2 w)); [apply xor_linear_MOD2|].
  apply xor_linear_lxor.
  - apply (xor_linear_compose (fun x => Z.shiftl x 32)); [apply xor_linear_shiftl|].
    apply (xor_linear_compose (X86.BIT_REFLECT w)); [apply xor_linear_BIT_REFLECT|].
    exact Hv.
  - apply (xor_linear_compose (fun x => Z.shiftl x (Z.of_nat w)));
      [apply xor_linear_shiftl|].
    apply (xor_linear_compose (X86.BIT_REFLECT 32)); [apply xor_linear_BIT_REFLECT|].
    exact Hh.
Qed.

Lemma xor_linear_packed_insn k : xor_linear (packed_insn k).
Proof.
  exact (xor_linear_CRC32 (8 * k) (fun x => Z.land x (Z.ones 32))
           (fun x => Z.shiftr x 32)
           (xor_linear_land (Z.ones 32)) (xor_linear_shiftr 32)).
Qed.

Lemma xor_linear_packed_sw k : xor_linear (packed_sw k).
Proof.
  exact (xor_linear_sw_bytes k (fun x => Z.land x (Z.ones 32))
           (fun x => Z.shiftr x 32)
           (xor_linear_land (Z.ones 32)) (xor_linear_shiftr 32)).
Qed.

Lemma packed_agree k x :
  agree_on_basis k = true ->
  fits (Z.of_nat (32 + 8 * k)) x -> packed_insn k x = packed_sw k x.
Proof.
  intros Hb.
  apply (xor_linear_ext (packed_insn k) (packed_sw k)
           (xor_linear_packed_insn k) (xor_linear_packed_sw k)
           (32 + 8 * k)%nat).
  intros i Hi. unfold agree_on_basis in Hb.
  rewrite forallb_forall in Hb.
  apply Z.eqb_eq. apply Hb. apply in_seq. lia.
Qed.

Lemma CRC32_sw_bytes k h v :
  agree_on_basis k = true ->
  fits 32 h -> fits (Z.of_nat (8 * k)) v ->
  X86.CRC32 (8 * k) h v = sw_bytes k h v.
Proof.
  intros Hb [Hh0 Hh1] [Hv0 Hv1].
  pose proof (packed_agree k (h + 2 ^ 32 * v) Hb) as H.
  unfold packed_insn, packed_sw in H.
  assert (El : Z.land (h + 2 ^ 32 * v) (Z.ones 32) = h).
  { rewrite Z.land_ones by lia.
    replace (h + 2 ^ 32 * v) with (h + v * 2 ^ 32) by lia.
    rewrite Z.mod_add by lia. apply Z.mod_small. lia. }
  assert (Er : Z.shiftr (h + 2 ^ 32 * v) 32 = v).
  { rewrite Z.shiftr_div_pow2 by lia.
    replace (h + 2 ^ 32 * v) with (h + v * 2 ^ 32) by lia.
    rewrite Z.div_add by lia. rewrite Z.div_small; lia. }
  rewrite El, Er in H. apply H.
  unfold fits. split; [lia|].
  rewrite Nat2Z.inj_add, Z.pow_add_r by lia.
  change (2 ^ Z.of_nat 32) with (2 ^ 32). nia.
Qed.

Lemma agree_on_basis_1 : agree_on_basis 1 = true.
Proof. vm_compute. reflexivity. Qed.

Lemma agree_on_basis_2 : agree_on_basis 2 = true.
Proof. vm_compute. reflexivity. Qed.

Lemma agree_on_basis_4 : agree_on_basis 4 = true.
Proof. vm_compute. reflexivity. Qed.

Lemma agree_on_basis_8 : agree_on_basis 8 = true.
Proof. vm_compute. reflexivity. Qed.

(** ** The chunked engine on a CPU that follows the manual *)

Lemma follows_manual_intel : follows_manual intel.
Proof. intros w dest src. reflexivity. Qed.

Lemma fits_memcpy m k : forall s, fits (Z.of_nat (8 * k)) (memcpy m s k).
Proof.
  induction k as [|k IH]; intros s; cbn [memcpy].
  - unfold fits. simpl. lia.
  - destruct (fits_load m s) as [Hl0 Hl1].
    destruct (IH (S s)) as [Hr0 Hr1].
    unfold fits.
    replace (Z.of_nat (8 * S k)) with (8 + Z.of_nat (8 * k)) by lia.
    rewrite Z.pow_add_r by lia. nia.
Qed.

Lemma sw_bytes_memcpy m k : forall s h,
  sw_bytes k h (memcpy m s k) = sw_while m s k h.
Proof.
  induction k as [|k IH]; intros s h; cbn [sw_bytes memcpy sw_while].
  - reflexivity.
  - destruct (fits_load m s) as [Hl0 Hl1].
    assert (El : Z.land (load m s + 2 ^ 8 * memcpy m (S s) k) 255 = load m s).
    { change 255 with (Z.ones 8). rewrite Z.land_ones by lia.
      replace (load m s + 2 ^ 8 * memcpy m (S s) k)
        with (load m s + memcpy m (S s) k * 2 ^ 8) by lia.
      rewrite Z.mod_add by lia. apply Z.mod_small. lia. }
    assert (Er : Z.shiftr (load m s + 2 ^ 8 * memcpy m (S s) k) 8
                 = memcpy m (S s) k).
    { rewrite Z.shiftr_div_pow2 by lia.
      replace (load m s + 2 ^ 8 * memcpy m (S s) k)
        with (load m s + memcpy m (S s) k * 2 ^ 8) by lia.
      rewrite Z.div_add by lia. rewrite Z.div_small; lia. }
    rewrite El, Er. apply IH.
Qed.

Lemma sw_while_app m a : forall b s h,
  sw_while m s (a + b) h = sw_while m (s + a) b (sw_while m s a h).
Proof.
  induction a as [|a IH]; intros b s h; cbn [sw_while Nat.add].
  - rewrite Nat.add_0_r. reflexivity.
  - rewrite IH. f_equal. lia.
Qed.

Section Chunks.

Variable c : processor.
Hypothesis manual : follows_manual c.
Variable m : memory.

Lemma insn_chunk k s h :
  agree_on_basis k = true ->
  fits 32 h ->
  crc32_insn c (8 * k) h (memcpy m s k) = sw_while m s k h.
Proof.
  intros Hb Hh. rewrite manual.
  rewrite CRC32_sw_bytes; [apply sw_bytes_memcpy|exact Hb|exact Hh|].
  apply fits_memcpy.
Qed.

Lemma uint_memcpy k s :
  memcpy m s k mod 2 ^ Z.of_nat (8 * k) = memcpy m s k.
Proof. apply Z.mod_small, fits_memcpy. Qed.

Lemma mm_crc32_u8_chunk s h :
  fits 32 h ->
  _mm_crc32_u8 c h (uint8 (memcpy m s 1)) = sw_while m s 1 h.
Proof.
  intros Hh. unfold _mm_crc32_u8.
  pose proof (uint_memcpy 1 s) as Ev. change (uint8 (memcpy m s 1) = memcpy m s 1) in Ev.
  pose proof (insn_chunk 1 s h agree_on_basis_1 Hh) as Ei.
  change (8 * 1)%nat with 8%nat in Ei.
  rewrite !Ev, (uint32_fits h Hh), Ei.
  apply uint32_fits, fits_sw_while, Hh.
Qed.

Lemma mm_crc32_u16_chunk s h :
  fits 32 h ->
  _mm_crc32_u16 c h (uint16 (memcpy m s 2)) = sw_while m s 2 h.
Proof.
  intros Hh. unfold _mm_crc32_u16.
  pose proof (uint_memcpy 2 s) as Ev. change (uint16 (memcpy m s 2) = memcpy m s 2) in Ev.
  pose proof (insn_chunk 2 s h agree_on_basis_2 Hh) as Ei.
  change (8 * 2)%nat with 16%nat in Ei.
  rewrite !Ev, (uint32_fits h Hh), Ei.
  apply uint32_fits, fits_sw_while, Hh.
Qed.

Lemma mm_crc32_u32_chunk s h :
  fits 32 h ->
  _mm_crc32_u32 c h (uint32 (memcpy m s 4)) = sw_while m s 4 h.
Proof.
  intros Hh. unfold _mm_crc32_u32.
  pose proof (uint_memcpy 4 s) as Ev. change (uint32 (memcpy m s 4) = memcpy m s 4) in Ev.
  pose proof (insn_chunk 4 s h agree_on_basis_4 Hh) as Ei.
  change (8 * 4)%nat with 32%nat in Ei.
  rewrite !Ev, (uint32_fits h Hh), Ei.
  apply uint32_fits, fits_sw_while, Hh.
Qed.

Lemma mm_crc32_u64_chunk s hh :
  fits 32 hh ->
  _mm_crc32_u64 c hh (uint64 (memcpy m s 8)) = sw_while m s 8 hh.
Proof.
  intros Hh. unfold _mm_crc32_u64.
  pose proof (uint_memcpy 8 s) as Ev. change (uint64 (memcpy m s 8) = memcpy m s 8) in Ev.
  pose proof (insn_chunk 8 s hh agree_on_basis_8 Hh) as Ei.
  change (8 * 8)%nat with 64%nat in Ei.
  rewrite !Ev, (uint32_fits hh Hh), Ei.
  pose proof (fits_sw_while m 8 s hh Hh) as Hf.
  rewrite (uint32_fits _ Hf).
  apply Z.mod_small. destruct Hf as [H0 H1]. lia.
Qed.

(** The 8-byte loop leaves fewer than 8 bytes and the register the
    software loop has after the same bytes. *)
Lemma hw_while_sw q : forall r s hh,
  (r < 8)%nat -> fits 32 hh ->
  hw_while c m s (8 * q + r) hh
  = ((s + 8 * q)%nat, r, sw_while m s (8 * q) hh).
Proof.
  induction q as [|q IH]; intros r s hh Hr Hh.
  - rewrite Nat.mul_0_r, Nat.add_0_r. cbn [Nat.add sw_while].
    do 8 (destruct r as [|r]; [reflexivity|]). lia.
  - replace (8 * S q + r)%nat
      with (S (S (S (S (S (S (S (S (8 * q + r))))))))) by lia.
    cbn [hw_while].
    rewrite mm_crc32_u64_chunk by exact Hh.
    rewrite IH by (try exact Hr; apply fits_sw_while, Hh).
    replace (8 * S q)%nat with (8 + 8 * q)%nat by lia.
    rewrite (sw_while_app m 8). f_equal. f_equal. lia.
Qed.

End Chunks.

(** The 4-, 2- and 1-byte steps, once the remaining length is known:
    decide the three tests, turn each intrinsic into the software loop over
    its chunk, and leave the comparison of the registers. *)
Ltac run_tail c manual :=
  cbn [Nat.ltb Nat.leb Nat.sub Nat.min];
  rewrite ?Nat.min_0_r;
  rewrite ?(mm_crc32_u32_chunk c manual) by assumption;
  rewrite ?(mm_crc32_u16_chunk c manual) by assumption;
  rewrite ?(mm_crc32_u8_chunk c manual) by assumption;
  apply (f_equal (fun x => uint32 (Z.lnot x))).

(** The software loop over [a + b] bytes, cut into the chunks the hardware
    engine takes. *)
Ltac join_chunks m a b := symmetry; apply (sw_while_app m a b).

Ltac join_three_chunks m :=
  symmetry; etransitivity; [apply (sw_while_app m 4 3)|];
  apply (sw_while_app m 2 1).

Lemma uint32_idem x : uint32 (uint32 x) = uint32 x.
Proof. apply uint32_fits, fits_uint32. Qed.

Lemma fits_all_ones : fits 32 (uint64 (uint32 (Z.lnot 0))).
Proof. unfold fits. change (uint64 (uint32 (Z.lnot 0))) with 4294967295. lia. Qed.

(** On a 64-bit x86 build, on a CPU whose instruction follows the manual,
    the chunked engine returns what the software engine returns. *)
Lemma crc32c_hw_body_x86_64 (c : processor) (m : memory) (src len : nat) :
  follows_manual c ->
  crc32c_hw_body X86_64 c m src len = crc32c_sw m src len.
Proof.
  intros manual.
  pose proof (Nat.div_mod_eq len 8) as E.
  pose proof (Nat.mod_upper_bound len 8 ltac:(lia)) as Hr.
  set (q := (len / 8)%nat) in *. set (r := (len mod 8)%nat) in *.
  clearbody q r. rewrite E. clear E.
  unfold crc32c_hw_body, crc32c_sw.
  rewrite (hw_while_sw c manual m q r src _ Hr fits_all_ones).
  change (uint64 (uint32 (Z.lnot 0))) with (uint32 (Z.lnot 0)).
  assert (H0 : fits 32 (uint32 (Z.lnot 0))) by apply fits_uint32.
  pose proof (fits_sw_while m (8 * q) src _ H0) as Hq.
  rewrite (sw_while_app m (8 * q) r).
  set (h := sw_while m src (8 * q) (uint32 (Z.lnot 0))) in *.
  set (s := (src + 8 * q)%nat).
  rewrite (uint32_fits h Hq).
  clearbody h s. clear H0.
  assert (H4 : fits 32 (sw_while m s 4 h)) by (apply fits_sw_while, Hq).
  assert (H2 : fits 32 (sw_while m s 2 h)) by (apply fits_sw_while, Hq).
  assert (H42 : fits 32 (sw_while m (s + 4) 2 (sw_while m s 4 h)))
    by (apply fits_sw_while, H4).
  destruct r as [|[|[|[|[|[|[|[|r]]]]]]]]; try lia; clear Hr;
    run_tail c manual.
  - reflexivity.
  - reflexivity.
  - reflexivity.
  - join_chunks m 2%nat 1%nat.
  - reflexivity.
  - join_chunks m 4%nat 1%nat.
  - join_chunks m 4%nat 2%nat.
  - join_three_chunks m.
Qed.

(** [crc32c_hw] agrees with [crc32c_sw] on every build other than the
    32-bit x86 one, when the instruction follows the manual. *)
Lemma crc32c_hw_sw_except_i386 (p : platform) (m : memory) (src len : nat) :
  follows_manual (cpu p) ->
  target p <> I386 ->
  crc32c_hw p m src len = crc32c_sw m src len.
Proof.
  intros manual Ht. unfold crc32c_hw.
  destruct (target p) eqn:Et; cbn [X86_ONLY].
  - apply crc32c_hw_body_x86_64, manual.
  - contradiction.
  - reflexivity.
Qed.

(** ** Zero-length buffers *)

Lemma crc32c_hw_body_empty (t : arch) (c : processor) (m : memory) (src : nat) :
  crc32c_hw_body t c m src 0 = 0.
Proof. destruct t; reflexivity. Qed.

(** C10. On a zero-length buffer the software engine, the hardware engine
    (on every build and CPU) and the dispatching [crc32c] (in every dispatch
    state) return 0. *)
Theorem zero_length_checksum_is_zero (p : platform) (d : dispatch)
  (m : memory) (src : nat) :
  crc32c_sw m src 0 = 0
  /\ crc32c_hw p m src 0 = 0
  /\ fst (crc32c p d m src 0) = 0.
Proof.
  split; [reflexivity|]. split.
  - unfold crc32c_hw. destruct (X86_ONLY (target p)).
    + apply crc32c_hw_body_empty.
    + reflexivity.
  - unfold crc32c.
    destruct (g_impl (pthread_once (crc32c_init p) d));
      try reflexivity.
    destruct (X86_ONLY (target p)); cbn [fst].
    + apply crc32c_hw_body_empty.
    + reflexivity.
Qed.

(** ** The 32-bit x86 build *)

(** Without the 8-byte loop the engine takes one 4-byte, one 2-byte and one
    1-byte chunk and stops: from 8 bytes on it returns the checksum of the
    first 7 bytes only. *)
Lemma crc32c_hw_body_i386 (c : processor) (m : memory) (src len : nat) :
  follows_manual c ->
  crc32c_hw_body I386 c m src len = crc32c_sw m src (Nat.min len 7).
Proof.
  intros manual. unfold crc32c_hw_body, crc32c_sw.
  change (uint64 (uint32 (Z.lnot 0))) with (uint32 (Z.lnot 0)).
  rewrite uint32_idem.
  assert (H0 : fits 32 (uint32 (Z.lnot 0))) by apply fits_uint32.
  set (h := uint32 (Z.lnot 0)) in *. clearbody h.
  assert (H4 : fits 32 (sw_while m src 4 h)) by (apply fits_sw_while, H0).
  assert (H2 : fits 32 (sw_while m src 2 h)) by (apply fits_sw_while, H0).
  assert (H42 : fits 32 (sw_while m (src + 4) 2 (sw_while m src 4 h)))
    by (apply fits_sw_while, H4).
  destruct len as [|[|[|[|[|[|[|len]]]]]]]; run_tail c manual.
  - reflexivity.
  - reflexivity.
  - reflexivity.
  - join_chunks m 2%nat 1%nat.
  - reflexivity.
  - join_chunks m 4%nat 1%nat.
  - join_chunks m 4%nat 2%nat.
  - join_three_chunks m.
Qed.

(** The defect does not depend on what the instruction computes: on the
    32-bit build the engine never reads the eighth byte, so whatever the CPU
    does it cannot agree with the software engine on both of two buffers
    that differ in that byte only. *)
Lemma crc32c_hw_body_i386_ignores_eighth_byte (c : processor) :
  crc32c_hw_body I386 c (memory_of eight_bytes) 0 8
  = crc32c_hw_body I386 c (memory_of eight_bytes') 0 8
  /\ crc32c_sw (memory_of eight_bytes) 0 8
     <> crc32c_sw (memory_of eight_bytes') 0 8.
Proof.
  split.
  - unfold crc32c_hw_body. cbn [Nat.ltb Nat.leb Nat.sub Nat.add].
    change (memcpy (memory_of eight_bytes') 0 4)
      with (memcpy (memory_of eight_bytes) 0 4).
    change (memcpy (memory_of eight_bytes') 4 2)
      with (memcpy (memory_of eight_bytes) 4 2).
    change (memcpy (memory_of eight_bytes') 6 1)
      with (memcpy (memory_of eight_bytes) 6 1).
    reflexivity.
  - intros H. vm_compute in H. discriminate H.
Qed.

(** C2. The hardware engine must return what the software engine returns;
    on the 32-bit x86 build it does not: on the 8 bytes "12345678", with the
    instruction working as documented, [crc32c_hw] returns 0x124297EA, the
    checksum of the first 7 bytes, while [crc32c_sw] returns 0x6087809A. *)
Theorem crc32c_hw_i386_differs_from_sw :
  crc32c_hw i386_build (memory_of eight_bytes) 0 8 = 0x124297EA
  /\ crc32c_sw (memory_of eight_bytes) 0 7 = 0x124297EA
  /\ crc32c_sw (memory_of eight_bytes) 0 8 = 0x6087809A
  /\ crc32c_hw i386_build (memory_of eight_bytes) 0 8
     <> crc32c_sw (memory_of eight_bytes) 0 8.
Proof.
  split; [vm_compute; reflexivity|].
  split; [vm_compute; reflexivity|].
  split; [vm_compute; reflexivity|].
  intros H. vm_compute in H. discriminate H.
Qed.

(** ** The known vector *)

Lemma known_vector_sw : crc32c_sw (memory_of k_vec) 0 9 = 0xE3069283.
Proof. vm_compute. reflexivity. Qed.

(** Every engine returns 0xE3069283 on "123456789" on the builds other
    than 32-bit x86, in every dispatch state. *)
Lemma known_vector_except_i386 (p : platform) (d : dispatch) :
  follows_manual (cpu p) ->
  target p <> I386 ->
  crc32c_hw p (memory_of k_vec) 0 9 = 0xE3069283
  /\ fst (crc32c p d (memory_of k_vec) 0 9) = 0xE3069283.
Proof.
  intros manual Ht. split.
  - rewrite crc32c_hw_sw_except_i386 by assumption. apply known_vector_sw.
  - unfold crc32c.
    destruct (g_impl (pthread_once (crc32c_init p) d));
      try apply known_vector_sw.
    pose proof (crc32c_hw_sw_except_i386 p (memory_of k_vec) 0 9 manual Ht) as E.
    unfold crc32c_hw in E.
    destruct (X86_ONLY (target p)); cbn [fst].
    + rewrite E. apply known_vector_sw.
    + apply known_vector_sw.
Qed.

(** C3. The checksum of "123456789" must be 0xE3069283 on every engine; on
    the 32-bit x86 build the hardware engine, and the dispatching [crc32c]
    of a process that selected it, return 0x124297EA, while the software
    engine returns 0xE3069283. *)
Theorem known_vector_i386_hardware :
  crc32c_sw (memory_of k_vec) 0 9 = 0xE3069283
  /\ crc32c_hw i386_build (memory_of k_vec) 0 9 = 0x124297EA
  /\ crc32c i386_build process_start (memory_of k_vec) 0 9
     = (0x124297EA,
        {| g_crc32c_once := true; g_force_sw := 0; g_impl := CRC32C_IMPL_HW |})
  /\ crc32c_hw i386_build (memory_of k_vec) 0 9 <> 0xE3069283.
Proof.
  split; [vm_compute; reflexivity|].
  split; [vm_compute; reflexivity|].
  split; [vm_compute; reflexivity|].
  intros H. vm_compute in H. discriminate H.
Qed.

(** ** Initialization *)

Lemma pthread_once_done init d : g_crc32c_once (pthread_once init d) = true.
Proof.
  unfold pthread_once. destruct (g_crc32c_once d) eqn:E; [exact E|reflexivity].
Qed.

Lemma pthread_once_again init d :
  g_crc32c_once d = true -> pthread_once init d = d.
Proof. intros E. unfold pthread_once. rewrite E. reflexivity. Qed.

Lemma pthread_once_first init d :
  g_crc32c_once d = false ->
  g_impl (pthread_once init d) = g_impl (init d)
  /\ g_force_sw (pthread_once init d) = g_force_sw (init d).
Proof. intros E. unfold pthread_once. rewrite E. split; reflexivity. Qed.

Lemma truth_zero v : truth v = false <-> v = 0.
Proof.
  unfold truth. destruct (Z.eqb_spec v 0); cbn [negb]; split; congruence.
Qed.

(** The selector [crc32c_init] leaves, by cases on the force flag, the
    environment value and the detector. *)
Lemma crc32c_init_impl (p : platform) (d : dispatch) :
  g_impl (crc32c_init p d) =
  if truth (g_force_sw d) then CRC32C_IMPL_SW
  else match getenv_CRC32C_FORCE p with
       | Some env =>
           if String.eqb env "sw" then CRC32C_IMPL_SW
           else if cpu_has_hw_crc p then CRC32C_IMPL_HW else CRC32C_IMPL_SW
       | None => if cpu_has_hw_crc p then CRC32C_IMPL_HW else CRC32C_IMPL_SW
       end.
Proof.
  unfold crc32c_init.
  destruct (truth (g_force_sw d)) eqn:Ef; [reflexivity|].
  destruct (getenv_CRC32C_FORCE p) as [env|].
  - destruct (String.eqb env "sw"); [reflexivity|].
    destruct (String.eqb env "hw").
    + destruct (cpu_has_hw_crc p); reflexivity.
    + rewrite Ef. destruct (cpu_has_hw_crc p); reflexivity.
  - rewrite Ef. destruct (cpu_has_hw_crc p); reflexivity.
Qed.

(** C4. The one-time initialization of an undecided process selects
    Hardware exactly when no software-forcing override is active (the force
    flag is clear and the environment value is not "sw") and the capability
    detector returns true, and Software otherwise; "sw" always gives
    Software; "hw" gives Hardware only with the detector's support and
    Software without it; with any other or no value, and the flag clear, the
    detector alone decides. *)
Theorem crc32c_init_transition (p : platform) (d : dispatch) :
  g_crc32c_once d = false ->
  let d' := pthread_once (crc32c_init p) d in
  g_crc32c_once d' = true
  /\ (g_impl d' = CRC32C_IMPL_HW <->
      g_force_sw d = 0 /\ getenv_CRC32C_FORCE p <> Some "sw"%string
      /\ cpu_has_hw_crc p = true)
  /\ (g_impl d' <> CRC32C_IMPL_HW -> g_impl d' = CRC32C_IMPL_SW)
  /\ (getenv_CRC32C_FORCE p = Some "sw"%string -> g_impl d' = CRC32C_IMPL_SW)
  /\ (getenv_CRC32C_FORCE p = Some "hw"%string ->
      (g_impl d' = CRC32C_IMPL_HW -> cpu_has_hw_crc p = true)
      /\ (cpu_has_hw_crc p = false -> g_impl d' = CRC32C_IMPL_SW)
      /\ (g_force_sw d = 0 -> cpu_has_hw_crc p = true ->
          g_impl d' = CRC32C_IMPL_HW))
  /\ (getenv_CRC32C_FORCE p <> Some "sw"%string ->
      getenv_CRC32C_FORCE p <> Some "hw"%string ->
      g_force_sw d = 0 ->
      g_impl d' = if cpu_has_hw_crc p then CRC32C_IMPL_HW else CRC32C_IMPL_SW).
Proof.
  intros Hu d'.
  destruct (pthread_once_first (crc32c_init p) d Hu) as [Ei _].
  fold d' in Ei.
  split; [apply pthread_once_done|].
  rewrite Ei, crc32c_init_impl.
  destruct (truth (g_force_sw d)) eqn:Ef.
  - assert (Hf : g_force_sw d <> 0).
    { intros E. apply truth_zero in E. congruence. }
    repeat split; try congruence; try tauto.
  - apply truth_zero in Ef.
    destruct (getenv_CRC32C_FORCE p) as [env|].
    + destruct (String.eqb_spec env "sw") as [->|Hsw].
      * repeat split; intros; intuition congruence.
      * assert (Hne : Some env <> Some "sw"%string) by congruence.
        destruct (cpu_has_hw_crc p);
          repeat split; intros; intuition congruence.
    + destruct (cpu_has_hw_crc p);
        repeat split; intros; intuition congruence.
Qed.

Lemma crc32c_init_transition_witness :
  g_crc32c_once process_start = false
  /\ g_impl (pthread_once (crc32c_init x86_64_build) process_start)
     = CRC32C_IMPL_HW.
Proof.
  split; [reflexivity|].
  pose proof (crc32c_init_transition x86_64_build process_start eq_refl) as H.
  cbv zeta in H. destruct H as (_ & H & _).
  apply H. split; [reflexivity|split; [discriminate|reflexivity]].
Defined.

(** ** Forcing software and the ratchet *)

Lemma crc32c_force_software_state (p : platform) (d : dispatch) :
  crc32c_force_software p d
  = {| g_crc32c_once := true; g_force_sw := 1; g_impl := CRC32C_IMPL_SW |}.
Proof.
  unfold crc32c_force_software, pthread_once, set_impl, set_force_sw.
  cbn [g_crc32c_once g_force_sw g_impl].
  destruct (g_crc32c_once d); cbn [g_crc32c_once g_force_sw g_impl].
  - reflexivity.
  - unfold crc32c_init. cbn [g_force_sw truth Z.eqb negb].
    reflexivity.
Qed.

Lemma settled_force_software p d :
  settled_on_software (crc32c_force_software p d).
Proof. rewrite crc32c_force_software_state. split; reflexivity. Qed.

Lemma crc32c_selfcheck_settled p d :
  settled_on_software d -> crc32c_selfcheck p d = (0, d).
Proof.
  intros [Ho Hi]. unfold crc32c_selfcheck.
  rewrite (pthread_once_again _ d Ho), Hi.
  destruct (X86_ONLY (target p)); reflexivity.
Qed.

Lemma crc32c_settled p d m src len :
  settled_on_software d -> crc32c p d m src len = (crc32c_sw m src len, d).
Proof.
  intros [Ho Hi]. unfold crc32c.
  rewrite (pthread_once_again _ d Ho), Hi. reflexivity.
Qed.

Lemma crc32c_impl_name_settled p d :
  settled_on_software d -> crc32c_impl_name p d = ("sw"%string, d).
Proof.
  intros [Ho Hi]. unfold crc32c_impl_name.
  rewrite (pthread_once_again _ d Ho), Hi. reflexivity.
Qed.

Lemma call_settled p o d :
  settled_on_software d -> settled_on_software (snd (call p o d)).
Proof.
  intros H. destruct o as [| | | |m src len]; cbn [call].
  - rewrite (crc32c_impl_name_settled p d H). exact H.
  - exact H.
  - apply settled_force_software.
  - rewrite (crc32c_selfcheck_settled p d H). exact H.
  - rewrite (crc32c_settled p d m src len H). exact H.
Qed.

Lemma run_settled p os : forall d,
  settled_on_software d ->
  settled_on_software (snd (run p os d))
  /\ forall s, In (Name s) (fst (run p os d)) -> s = "sw"%string.
Proof.
  induction os as [|o os IH]; intros d H; cbn [run].
  - split; [exact H|]. intros s [].
  - pose proof (call_settled p o d H) as Hc.
    assert (Hn : forall s, fst (call p o d) = Name s -> s = "sw"%string).
    { destruct o as [| | | |m src len]; cbn [call]; intros s.
      - rewrite (crc32c_impl_name_settled p d H). cbn [fst]. congruence.
      - cbn [fst]. discriminate.
      - cbn [fst]. discriminate.
      - destruct (crc32c_selfcheck p d). cbn [fst]. discriminate.
      - destruct (crc32c p d m src len). cbn [fst]. discriminate. }
    destruct (call p o d) as [r d1]. cbn [fst snd] in Hc, Hn.
    destruct (IH d1 Hc) as [Hs Hnames].
    destruct (run p os d1) as [rs d2]. cbn [fst snd] in *.
    split; [exact Hs|].
    intros s [E|Hin]; [apply Hn, E|apply Hnames, Hin].
Qed.

Lemma crc32c_selfcheck_failure_forces p d :
  fst (crc32c_selfcheck p d) <> 0 ->
  snd (crc32c_selfcheck p d)
  = crc32c_force_software p (pthread_once (crc32c_init p) d).
Proof.
  unfold crc32c_selfcheck.
  destruct (X86_ONLY (target p)); [|cbn [fst]; congruence].
  destruct (g_impl (pthread_once (crc32c_init p) d));
    try (cbn [fst]; congruence).
  match goal with |- context [if truth ?f then _ else _] =>
    destruct (truth f) end; cbn [fst snd]; congruence.
Qed.

(** C5. Ratchet: once [crc32c_force_software] has been invoked, or a
    self-check has returned failure (and so forced software), then after every
    sequence of public operations the selector is Software, the implementation
    name is "sw", and every name reported along the way was "sw"; and a
    selector settled on Software is never set to Hardware by any sequence. *)
Theorem software_ratchet (p : platform) (os : list operation) (d : dispatch) :
  stays_software p os (crc32c_force_software p d)
  /\ (fst (crc32c_selfcheck p d) <> 0 ->
      stays_software p os (snd (crc32c_selfcheck p d)))
  /\ (settled_on_software d -> stays_software p os d).
Proof.
  assert (K : forall d0, settled_on_software d0 -> stays_software p os d0).
  { intros d0 H0. destruct (run_settled p os d0 H0) as [Hs Hn].
    unfold stays_software. split; [apply Hs|]. split; [|exact Hn].
    rewrite (crc32c_impl_name_settled p _ Hs). reflexivity. }
  split; [apply K, settled_force_software|].
  split; [|apply K].
  intros Hf. apply K.
  rewrite (crc32c_selfcheck_failure_forces p d Hf).
  apply settled_force_software.
Qed.

Lemma software_ratchet_witness :
  fst (crc32c_selfcheck i386_build process_start) <> 0
  /\ g_impl (snd (run i386_build
                    [Impl_name; Selfcheck; Checksum (memory_of k_vec) 0 9]
                    (snd (crc32c_selfcheck i386_build process_start))))
     = CRC32C_IMPL_SW.
Proof.
  assert (Hf : fst (crc32c_selfcheck i386_build process_start) <> 0).
  { intros H. vm_compute in H. discriminate H. }
  split; [exact Hf|].
  pose proof (software_ratchet i386_build
                [Impl_name; Selfcheck; Checksum (memory_of k_vec) 0 9]
                process_start) as H.
  destruct H as (_ & H & _).
  apply (H Hf).
Defined.

(** ** The self-check *)

(** The bytes of the pattern buffer. *)
Lemma load_byte_of_Z x : Z.of_N (Byte.to_N (byte_of_Z x)) = x mod 2 ^ 8.
Proof.
  unfold byte_of_Z, uint8.
  pose proof (Z.mod_pos_bound x (2 ^ 8) ltac:(lia)) as Hb.
  destruct (Byte.of_N (Z.to_N (x mod 2 ^ 8))) as [b|] eqn:E.
  - apply Byte.to_of_N in E. rewrite E. lia.
  - apply Byte.of_N_None_iff in E. lia.
Qed.

Lemma pattern_bytes (i : nat) :
  (i < 512)%nat ->
  load (memory_of pattern) i = (Z.of_nat i * 3 + 1) mod 2 ^ 8.
Proof.
  intros Hi. unfold load, memory_of, pattern.
  rewrite (nth_indep _ x00 (byte_of_Z (Z.of_nat 0 * 3 + 1)))
    by (rewrite length_map, length_seq; exact Hi).
  rewrite (map_nth (fun i => byte_of_Z (Z.of_nat i * 3 + 1))).
  rewrite seq_nth by exact Hi.
  apply load_byte_of_Z.
Qed.

Lemma fold_left_total {A : Type} (g : Z -> A -> Z) (w : A -> Z) :
  (forall n a, g n a = n + w a) ->
  forall l n, fold_left g l n = n + total w l.
Proof.
  intros Hg. induction l as [|a l IH]; intros n; cbn [fold_left total].
  - lia.
  - rewrite IH, Hg. lia.
Qed.

Lemma total_nonneg {A : Type} (w : A -> Z) (l : list A) :
  (forall a, 0 <= w a) -> 0 <= total w l.
Proof.
  intros Hw. induction l as [|a l IH]; cbn [total].
  - lia.
  - specialize (Hw a). lia.
Qed.

Lemma total_nonzero {A : Type} (w : A -> Z) (l : list A) :
  (forall a, 0 <= w a) ->
  total w l <> 0 <-> exists a, In a l /\ w a <> 0.
Proof.
  intros Hw. induction l as [|a l IH]; cbn [total In].
  - split; [lia|intros (a & [] & _)].
  - pose proof (Hw a) as Ha. pose proof (total_nonneg w l Hw) as Hl.
    split.
    + intros Hne. destruct (Z.eq_dec (w a) 0) as [E|E].
      * destruct (proj1 IH ltac:(lia)) as (b & Hb & Hwb).
        exists b. split; [right; exact Hb|exact Hwb].
      * exists a. split; [left; reflexivity|exact E].
    + intros (b & [->|Hb] & Hwb).
      * lia.
      * assert (total w l <> 0) by (apply IH; exists b; split; assumption).
        lia.
Qed.

Lemma selfcheck_slice_adds t c off len n :
  selfcheck_slice t c off len n = n + Z.b2z (slice_differs t c off len).
Proof.
  unfold selfcheck_slice, slice_differs.
  destruct (List.length pattern <? off + len)%nat; cbn [negb andb Z.b2z];
    [lia|].
  destruct (crc32c_hw_body t c (memory_of pattern) off len
            =? crc32c_sw (memory_of pattern) off len);
    cbn [negb Z.b2z]; lia.
Qed.

Lemma selfcheck_matrix_adds t c n :
  selfcheck_matrix t c n
  = n + total (fun off => total (fun len => Z.b2z (slice_differs t c off len))
                                lengths) offsets.
Proof.
  unfold selfcheck_matrix.
  apply (fold_left_total
           (fun failures off =>
              fold_left (fun failures len =>
                           selfcheck_slice t c off len failures)
                        lengths failures)).
  intros k off.
  apply (fold_left_total
           (fun failures len => selfcheck_slice t c off len failures)
           (fun len => Z.b2z (slice_differs t c off len))).
  intros k' len. apply selfcheck_slice_adds.
Qed.

Lemma b2z_nonneg b : 0 <= Z.b2z b.
Proof. destruct b; cbn; lia. Qed.

Lemma selfcheck_matrix_nonzero t c n :
  0 <= n ->
  selfcheck_matrix t c n <> 0 <->
  n <> 0 \/ exists off len, In off offsets /\ In len lengths
                            /\ slice_differs t c off len = true.
Proof.
  intros Hn. rewrite selfcheck_matrix_adds.
  set (inner := fun off =>
                  total (fun len => Z.b2z (slice_differs t c off len)) lengths).
  assert (Hi : forall off, 0 <= inner off).
  { intros off. apply total_nonneg. intros len. apply b2z_nonneg. }
  pose proof (total_nonneg inner offsets Hi) as Hs.
  pose proof (total_nonzero inner offsets Hi) as Hz.
  split.
  - intros Hne. destruct (Z.eq_dec n 0) as [E|E]; [right|left; exact E].
    destruct (proj1 Hz ltac:(lia)) as (off & Hoff & Hw).
    unfold inner in Hw.
    apply total_nonzero in Hw; [|intros len; apply b2z_nonneg].
    destruct Hw as (len & Hlen & Hb).
    exists off, len. split; [exact Hoff|]. split; [exact Hlen|].
    destruct (slice_differs t c off len); [reflexivity|].
    cbn in Hb. congruence.
  - intros [Hne|(off & len & Hoff & Hlen & Hb)]; [lia|].
    assert (total inner offsets <> 0); [|lia].
    apply Hz. exists off. split; [exact Hoff|].
    unfold inner. apply total_nonzero; [intros l; apply b2z_nonneg|].
    exists len. split; [exact Hlen|]. rewrite Hb. cbn. lia.
Qed.

Lemma slice_differs_spec (p : platform) (off len : nat) :
  X86_ONLY (target p) = true ->
  slice_differs (target p) (cpu p) off len = true <->
  (off + len <= 512)%nat
  /\ crc32c_hw p (memory_of pattern) off len
     <> crc32c_sw (memory_of pattern) off len.
Proof.
  intros Hx. unfold slice_differs, crc32c_hw. rewrite Hx.
  change (List.length pattern) with 512%nat.
  rewrite andb_true_iff, !negb_true_iff, Nat.ltb_ge, Z.eqb_neq.
  reflexivity.
Qed.

Lemma crc32c_selfcheck_hardware (p : platform) (d : dispatch) :
  X86_ONLY (target p) = true ->
  g_impl (pthread_once (crc32c_init p) d) = CRC32C_IMPL_HW ->
  crc32c_selfcheck p d
  = if truth (selfcheck_failures (target p) (cpu p))
    then (-1, crc32c_force_software p (pthread_once (crc32c_init p) d))
    else (0, pthread_once (crc32c_init p) d).
Proof.
  intros Hx Hi. unfold crc32c_selfcheck. rewrite Hx, Hi. reflexivity.
Qed.

Lemma selfcheck_failures_disagree (p : platform) :
  X86_ONLY (target p) = true ->
  truth (selfcheck_failures (target p) (cpu p)) = true <-> engines_disagree p.
Proof.
  intros Hx. unfold selfcheck_failures.
  change (strlen k_vec) with 9%nat.
  set (kv := if negb (crc32c_hw_body (target p) (cpu p) (memory_of k_vec) 0 9
                      =? crc32c_sw (memory_of k_vec) 0 9)
             then 0 + 1 else 0).
  assert (Hkv : 0 <= kv) by (unfold kv; destruct (negb _); lia).
  assert (Ekv : kv <> 0 <->
                crc32c_hw p (memory_of k_vec) 0 9
                <> crc32c_sw (memory_of k_vec) 0 9).
  { unfold kv, crc32c_hw. rewrite Hx.
    destruct (Z.eqb_spec
                (crc32c_hw_body (target p) (cpu p) (memory_of k_vec) 0 9)
                (crc32c_sw (memory_of k_vec) 0 9)) as [E|E];
      cbn [negb]; split; intros H; try lia; congruence. }
  unfold truth. rewrite negb_true_iff, Z.eqb_neq.
  rewrite (selfcheck_matrix_nonzero (target p) (cpu p) kv Hkv), Ekv.
  unfold engines_disagree. apply or_iff_compat_l.
  split; intros (off & len & Hoff & Hlen & H); exists off, len;
    (split; [exact Hoff|split; [exact Hlen|]]);
    apply (slice_differs_spec p off len Hx); exact H.
Qed.

Lemma engines_agree_off_x86 (p : platform) :
  X86_ONLY (target p) = false -> ~ engines_disagree p.
Proof.
  intros Hx. unfold engines_disagree, crc32c_hw. rewrite Hx.
  intros [H|(off & len & _ & _ & _ & H)]; apply H; reflexivity.
Qed.

(** C6. When the selector the self-check reads is Hardware, it returns a
    non-zero status exactly when the hardware and software engines disagree
    on "123456789" or on a slice of the pattern (whose byte [i] is
    [(3 i + 1) mod 256]) at an offset in {0,1,2,3,4,7,8,15,31,63} and a
    length in {0,1,2,3,4,7,8,15,16,31,32,63,64,255} that fits in the 512-byte
    buffer; and after a failure the selector is Software and the
    implementation name is "sw". *)
Theorem selfcheck_fails_iff_engines_disagree (p : platform) (d : dispatch) :
  g_impl (pthread_once (crc32c_init p) d) = CRC32C_IMPL_HW ->
  (forall i : nat, (i < 512)%nat ->
     load (memory_of pattern) i = (Z.of_nat i * 3 + 1) mod 256)
  /\ (fst (crc32c_selfcheck p d) <> 0 <-> engines_disagree p)
  /\ (fst (crc32c_selfcheck p d) <> 0 ->
      g_impl (snd (crc32c_selfcheck p d)) = CRC32C_IMPL_SW
      /\ fst (crc32c_impl_name p (snd (crc32c_selfcheck p d))) = "sw"%string).
Proof.
  intros Hi. split; [exact pattern_bytes|].
  split.
  - destruct (X86_ONLY (target p)) eqn:Hx.
    + rewrite (crc32c_selfcheck_hardware p d Hx Hi).
      rewrite <- (selfcheck_failures_disagree p Hx).
      destruct (truth (selfcheck_failures (target p) (cpu p)));
        cbn [fst]; split; intros H; try reflexivity; try discriminate.
      contradiction.
    + pose proof (engines_agree_off_x86 p Hx) as Hagree.
      unfold crc32c_selfcheck. rewrite Hx. cbn [fst].
      split; intros H; contradiction.
  - intros Hf.
    pose proof (settled_force_software p (pthread_once (crc32c_init p) d))
      as Hs.
    rewrite <- (crc32c_selfcheck_failure_forces p d Hf) in Hs.
    split; [apply Hs|].
    rewrite (crc32c_impl_name_settled p _ Hs). reflexivity.
Qed.

Lemma selfcheck_fails_iff_engines_disagree_witness :
  g_impl (pthread_once (crc32c_init i386_build) process_start)
  = CRC32C_IMPL_HW
  /\ engines_disagree i386_build.
Proof.
  split; [reflexivity|].
  apply (selfcheck_fails_iff_engines_disagree i386_build process_start
           eq_refl).
  intros H. vm_compute in H. discriminate H.
Defined.

(** On the builds other than 32-bit x86 a CPU that follows the manual
    passes the self-check. *)
Lemma crc32c_selfcheck_passes (p : platform) (d : dispatch) :
  follows_manual (cpu p) ->
  target p <> I386 ->
  fst (crc32c_selfcheck p d) = 0.
Proof.
  intros manual Ht.
  assert (Hagree : ~ engines_disagree p).
  { unfold engines_disagree.
    intros [H|(off & len & _ & _ & _ & H)]; apply H;
      apply crc32c_hw_sw_except_i386; assumption. }
  destruct (X86_ONLY (target p)) eqn:Hx;
    [|unfold crc32c_selfcheck; rewrite Hx; reflexivity].
  destruct (g_impl (pthread_once (crc32c_init p) d)) eqn:Hi;
    try (unfold crc32c_selfcheck; rewrite Hx, Hi; reflexivity).
  rewrite (crc32c_selfcheck_hardware p d Hx Hi).
  destruct (truth (selfcheck_failures (target p) (cpu p))) eqn:Ef;
    [|reflexivity].
  exfalso. apply Hagree, (selfcheck_failures_disagree p Hx), Ef.
Qed.



(** C8. [crc32c_force_software] is idempotent: a second call leaves the
    state the first call left, the implementation name is then "sw", and a
    checksum call that follows returns [crc32c_sw] on every input. *)
Theorem force_software_idempotent (p : platform) (d : dispatch)
  (m : memory) (src len : nat) :
  let once := crc32c_force_software p d in
  let twice := crc32c_force_software p once in
  twice = once
  /\ crc32c_impl_name p twice = ("sw"%string, twice)
  /\ crc32c p twice m src len = (crc32c_sw m src len, twice).
Proof.
  intros once twice.
  pose proof (settled_force_software p once) as Hs. fold twice in Hs.
  split.
  - unfold twice, once. rewrite !crc32c_force_software_state. reflexivity.
  - split.
    + apply crc32c_impl_name_settled, Hs.
    + apply crc32c_settled, Hs.
Qed.

Lemma run_skips_hw_available p os1 : forall os2 d,
  snd (run p (os1 ++ Hw_available :: os2) d) = snd (run p (os1 ++ os2) d).
Proof.
  induction os1 as [|o os1 IH]; intros os2 d; cbn [app run].
  - cbn [call]. destruct (run p os2 d) as [rs d']. reflexivity.
  - destruct (call p o d) as [r d1].
    specialize (IH os2 d1).
    destruct (run p (os1 ++ Hw_available :: os2) d1) as [rs d2].
    destruct (run p (os1 ++ os2) d1) as [rs' d2'].
    exact IH.
Qed.

Lemma run_available p os : forall d b,
  In (Available b) (fst (run p os d)) -> b = cpu_has_hw_crc p.
Proof.
  induction os as [|o os IH]; intros d b; cbn [run].
  - intros [].
  - assert (Hc : fst (call p o d) = Available b -> b = cpu_has_hw_crc p).
    { destruct o as [| | | |m src len]; cbn [call].
      - destruct (crc32c_impl_name p d). cbn [fst]. discriminate.
      - cbn [fst]. unfold crc32c_hw_available. congruence.
      - cbn [fst]. discriminate.
      - destruct (crc32c_selfcheck p d). cbn [fst]. discriminate.
      - destruct (crc32c p d m src len). cbn [fst]. discriminate. }
    destruct (call p o d) as [r d1]. cbn [fst] in Hc.
    specialize (IH d1 b).
    destruct (run p os d1) as [rs d2]. cbn [fst] in *.
    intros [E|Hin]; [apply Hc, E|apply IH, Hin].
Qed.

(** C9. [crc32c_hw_available] returns what the capability detector
    returns. As an operation it leaves the dispatch state (selector, force
    flag and once-guard) as it was, so it does not initialize; a call
    inserted anywhere in a sequence of operations does not change the state
    the sequence ends in; and every call in a sequence, whatever precedes
    it, returns the detector's value. *)
Theorem hw_available_passthrough (p : platform) (os1 os2 : list operation)
  (d : dispatch) :
  crc32c_hw_available p = cpu_has_hw_crc p
  /\ call p Hw_available d = (Available (cpu_has_hw_crc p), d)
  /\ snd (run p (os1 ++ Hw_available :: os2) d) = snd (run p (os1 ++ os2) d)
  /\ (forall b,
        In (Available b) (fst (run p (os1 ++ Hw_available :: os2) d)) ->
        b = cpu_has_hw_crc p).
Proof.
  split; [reflexivity|]. split; [reflexivity|]. split.
  - apply run_skips_hw_available.
  - apply run_available.
Qed.

Lemma hw_available_passthrough_witness :
  In (Available true)
     (fst (run x86_64_build ([Force_software] ++ Hw_available :: [Selfcheck])
             process_start))
  /\ true = cpu_has_hw_crc x86_64_build.
Proof.
  assert (H : In (Available true)
                 (fst (run x86_64_build
                         ([Force_software] ++ Hw_available :: [Selfcheck])
                         process_start)))
    by (right; left; reflexivity).
  split; [exact H|].
  apply (hw_available_passthrough x86_64_build [Force_software] [Selfcheck]
           process_start).
  exact H.
Defined.

(** * Further properties of the engines *)

(** X1. On every build other than 32-bit x86, with a CPU whose [CRC32]
    instruction works as documented, the hardware engine returns what the
    software engine returns, for every memory, pointer and length; in
    particular it returns the bit-serial checksum of the buffer. *)
Theorem hardware_engine_is_software_engine (p : platform) (m : memory)
  (src len : nat) :
  follows_manual (cpu p) ->
  target p <> I386 ->
  crc32c_hw p m src len = crc32c_sw m src len
  /\ crc32c_hw p m src len = Reference.crc32c (buffer m src len).
Proof.
  intros manual Ht.
  pose proof (crc32c_hw_sw_except_i386 p m src len manual Ht) as E.
  split; [exact E|].
  rewrite E. unfold crc32c_sw, Reference.crc32c, Reference.bitwise_not,
    Reference.all_ones.
  change (uint32 (Z.lnot 0)) with (Z.ones 32).
  rewrite uint32_lnot.
  - rewrite sw_while_fold. reflexivity.
  - apply fits_sw_while. unfold fits. rewrite Z.ones_equiv. lia.
Qed.

Lemma hardware_engine_is_software_engine_witness :
  crc32c_hw x86_64_build (memory_of k_vec) 0 9
  = crc32c_sw (memory_of k_vec) 0 9.
Proof.
  apply (hardware_engine_is_software_engine x86_64_build (memory_of k_vec)
           0 9).
  - intros w dest src. reflexivity.
  - discriminate.
Defined.

(** X2. On the 32-bit x86 build, with a CPU whose instruction works as
    documented, the hardware engine returns the software checksum of the
    first [min len 7] bytes: it agrees with the software engine on every
    buffer of at most 7 bytes, and on a longer one it returns the checksum
    of its first 7 bytes. *)
Theorem i386_engine_consumes_seven_bytes (c : processor) (m : memory)
  (src len : nat) :
  follows_manual c ->
  crc32c_hw_body I386 c m src len = crc32c_sw m src (Nat.min len 7)
  /\ ((len <= 7)%nat -> crc32c_hw_body I386 c m src len = crc32c_sw m src len)
  /\ ((7 <= len)%nat -> crc32c_hw_body I386 c m src len = crc32c_sw m src 7).
Proof.
  intros manual.
  pose proof (crc32c_hw_body_i386 c m src len manual) as E.
  split; [exact E|]. split; intros Hl; rewrite E; f_equal; lia.
Qed.

Lemma i386_engine_consumes_seven_bytes_witness :
  crc32c_hw_body I386 intel (memory_of k_vec) 0 9
  = crc32c_sw (memory_of k_vec) 0 7.
Proof.
  apply (i386_engine_consumes_seven_bytes intel (memory_of k_vec) 0 9).
  - intros w dest src. reflexivity.
  - repeat constructor.
Defined.

(** ** The dispatcher returns the software checksum *)

Lemma crc32c_state (p : platform) (d : dispatch) (m : memory) (src len : nat) :
  snd (crc32c p d m src len) = pthread_once (crc32c_init p) d.
Proof.
  unfold crc32c.
  destruct (g_impl (pthread_once (crc32c_init p) d)); try reflexivity.
  destruct (X86_ONLY (target p)); reflexivity.
Qed.

Lemma crc32c_value_sw (p : platform) (d : dispatch) (m : memory)
  (src len : nat) :
  (g_impl (pthread_once (crc32c_init p) d) = CRC32C_IMPL_HW ->
   crc32c_hw p m src len = crc32c_sw m src len) ->
  fst (crc32c p d m src len) = crc32c_sw m src len.
Proof.
  intros H. unfold crc32c.
  destruct (g_impl (pthread_once (crc32c_init p) d)); try reflexivity.
  specialize (H eq_refl). unfold crc32c_hw in H.
  destruct (X86_ONLY (target p)); cbn [fst]; [exact H|reflexivity].
Qed.

(** X4. On every build other than 32-bit x86, with a CPU whose instruction
    works as documented, [crc32c] returns the software checksum on every
    input and in every dispatch state, whichever engine is selected, and the
    state it leaves is the state it was called in, initialized. *)
Theorem dispatcher_is_software_engine (p : platform) (d : dispatch)
  (m : memory) (src len : nat) :
  follows_manual (cpu p) ->
  target p <> I386 ->
  crc32c p d m src len
  = (crc32c_sw m src len, pthread_once (crc32c_init p) d).
Proof.
  intros manual Ht.
  rewrite (surjective_pairing (crc32c p d m src len)).
  rewrite crc32c_state. f_equal.
  apply crc32c_value_sw. intros _.
  apply crc32c_hw_sw_except_i386; assumption.
Qed.

Lemma dispatcher_is_software_engine_witness :
  crc32c x86_64_build process_start (memory_of k_vec) 0 9
  = (crc32c_sw (memory_of k_vec) 0 9,
     pthread_once (crc32c_init x86_64_build) process_start).
Proof.
  apply (dispatcher_is_software_engine x86_64_build process_start
           (memory_of k_vec) 0 9).
  - intros w dest src. reflexivity.
  - discriminate.
Defined.

(** ** The engines read the buffer and nothing else *)

Lemma agree_sub m1 m2 s len s' len' :
  agree m1 m2 s len ->
  (s <= s')%nat -> (s' + len' <= s + len)%nat ->
  agree m1 m2 s' len'.
Proof. intros H Hs Hl i Hi. apply H. lia. Qed.


Lemma sw_while_agree m1 m2 len : forall s h,
  agree m1 m2 s len -> sw_while m1 s len h = sw_while m2 s len h.
Proof.
  induction len as [|len IH]; intros s h H; cbn [sw_while].
  - reflexivity.
  - unfold load. rewrite (H s) by lia.
    apply IH. apply (agree_sub m1 m2 s (S len)); [exact H|lia|lia].
Qed.







(** ** What the software checksum detects *)

Lemma testbit_fits n x i : fits n x -> n <= i -> Z.testbit x i = false.
Proof.
  intros [H0 H1] Hi.
  destruct (Z.eq_dec x 0) as [->|Hx]; [apply Z.bits_0|].
  apply Z.bits_above_log2; [exact H0|].
  assert (Z.log2 x < n); [|lia].
  apply Z.log2_lt_pow2; lia.
Qed.

Lemma lxor_cancel_r a b c : Z.lxor a c = Z.lxor b c -> a = b.
Proof.
  intros H. apply (f_equal (fun x => Z.lxor x c)) in H.
  rewrite !Z.lxor_assoc, Z.lxor_nilpotent, !Z.lxor_0_r in H. exact H.
Qed.

Lemma lxor_cancel_l a b c : Z.lxor c a = Z.lxor c b -> a = b.
Proof.
  intros H. rewrite (Z.lxor_comm c a), (Z.lxor_comm c b) in H.
  exact (lxor_cancel_r a b c H).
Qed.

(** A round can be undone: bit 31 of its result is the bit it shifted
    out. *)
Lemma sw_round_top_bit h :
  fits 32 h -> Z.testbit (sw_round h) 31 = Z.testbit h 0.
Proof.
  intros Hh. rewrite sw_round_select, Z.lxor_spec.
  rewrite Z.shiftr_spec by lia.
  rewrite (testbit_fits 32 h (31 + 1) Hh) by lia.
  destruct (Z.testbit h 0); reflexivity.
Qed.

Lemma sw_round_inj h1 h2 :
  fits 32 h1 -> fits 32 h2 -> sw_round h1 = sw_round h2 -> h1 = h2.
Proof.
  intros F1 F2 E.
  assert (Eb : Z.testbit h1 0 = Z.testbit h2 0).
  { rewrite <- (sw_round_top_bit h1 F1), <- (sw_round_top_bit h2 F2), E.
    reflexivity. }
  rewrite !sw_round_select, Eb in E.
  apply lxor_cancel_r in E.
  rewrite <- !Z.div2_spec in E.
  rewrite (Z.div2_odd h1), (Z.div2_odd h2).
  rewrite <- !Z.bit0_odd, Eb, E. reflexivity.
Qed.

Lemma sw_for_inj k : forall h1 h2,
  fits 32 h1 -> fits 32 h2 -> sw_for k h1 = sw_for k h2 -> h1 = h2.
Proof.
  induction k as [|k IH]; intros h1 h2 F1 F2 E; cbn [sw_for] in E.
  - exact E.
  - apply (sw_round_inj h1 h2 F1 F2).
    apply IH; [apply fits_sw_round, F1|apply fits_sw_round, F2|exact E].
Qed.

Lemma sw_while_inj m len : forall s h1 h2,
  fits 32 h1 -> fits 32 h2 ->
  sw_while m s len h1 = sw_while m s len h2 -> h1 = h2.
Proof.
  induction len as [|len IH]; intros s h1 h2 F1 F2 E; cbn [sw_while] in E.
  - exact E.
  - assert (Fl : fits 32 (load m s))
      by (apply (fits_weaken 8); [lia|apply fits_load]).
    apply IH in E;
      [|apply fits_sw_for, fits_lxor; [lia|assumption|assumption]
       |apply fits_sw_for, fits_lxor; [lia|assumption|assumption]].
    apply sw_for_inj in E;
      [|apply fits_lxor; [lia|assumption|assumption]
       |apply fits_lxor; [lia|assumption|assumption]].
    exact (lxor_cancel_r h1 h2 _ E).
Qed.

(** Rounds on a register whose low bits are clear only shift. *)
Lemma sw_round_double z : sw_round (2 * z) = z.
Proof.
  rewrite sw_round_select, Z.testbit_even_0, Z.lxor_0_r.
  rewrite <- Z.div2_spec, Z.div2_div.
  rewrite Z.mul_comm. apply Z.div_mul. lia.
Qed.

Lemma sw_for_shiftl n z : sw_for n (Z.shiftl z (Z.of_nat n)) = z.
Proof.
  induction n as [|n IH].
  - cbn [sw_for]. apply Z.shiftl_0_r.
  - cbn [sw_for].
    replace (Z.shiftl z (Z.of_nat (S n)))
      with (2 * Z.shiftl z (Z.of_nat n)).
    + rewrite sw_round_double. exact IH.
    + rewrite !Z.shiftl_mul_pow2 by lia.
      rewrite Nat2Z.inj_succ, Z.pow_succ_r by lia. lia.
Qed.

Lemma sw_for_add a : forall b h, sw_for (a + b) h = sw_for b (sw_for a h).
Proof.
  induction a as [|a IH]; intros b h; cbn [sw_for Nat.add].
  - reflexivity.
  - apply IH.
Qed.

(** The rounds over the [k] bytes of [v] are [8 k] rounds on the register
    XORed with [v]. *)
Lemma sw_bytes_wide k : forall h v,
  fits (Z.of_nat (8 * k)) v ->
  sw_bytes k h v = sw_for (8 * k) (Z.lxor h v).
Proof.
  induction k as [|k IH]; intros h v Hv; cbn [sw_bytes].
  - destruct Hv as [H0 H1]. change (2 ^ Z.of_nat (8 * 0)) with 1 in H1.
    replace v with 0 by lia. rewrite Z.lxor_0_r. reflexivity.
  - assert (Hv' : fits (Z.of_nat (8 * k)) (Z.shiftr v 8)).
    { destruct Hv as [H0 H1]. unfold fits.
      rewrite Z.shiftr_div_pow2 by lia. split.
      - apply Z.div_pos; lia.
      - apply Z.div_lt_upper_bound; [lia|].
        rewrite <- Z.pow_add_r by lia.
        replace (8 + Z.of_nat (8 * k)) with (Z.of_nat (8 * S k)) by lia.
        exact H1. }
    rewrite (IH _ _ Hv').
    replace (8 * S k)%nat with (8 + 8 * k)%nat by lia.
    rewrite (sw_for_add 8 (8 * k)).
    apply (f_equal (sw_for (8 * k))).
    assert (Ev : Z.lxor (Z.land v 255) (Z.shiftl (Z.shiftr v 8) 8) = v).
    { symmetry. exact (split_top 8 v ltac:(lia)). }
    transitivity
      (sw_for 8 (Z.lxor (Z.lxor h (Z.land v 255))
                        (Z.shiftl (Z.shiftr v 8) 8))).
    + pose proof (sw_for_shiftl 8 (Z.shiftr v 8)) as Es.
      change (Z.of_nat 8) with 8 in Es.
      rewrite (xor_linear_sw_for 8 (Z.lxor h (Z.land v 255))
                 (Z.shiftl (Z.shiftr v 8) 8)), Es.
      reflexivity.
    + rewrite Z.lxor_assoc, Ev. reflexivity.
Qed.

Lemma load_inj m1 m2 s1 s2 : load m1 s1 = load m2 s2 -> m1 s1 = m2 s2.
Proof.
  unfold load. intros E. apply N2Z.inj in E.
  pose proof (Byte.of_to_N (m1 s1)) as E1.
  rewrite E, Byte.of_to_N in E1. congruence.
Qed.

Lemma memcpy_inj m1 m2 k : forall s,
  memcpy m1 s k = memcpy m2 s k -> agree m1 m2 s k.
Proof.
  induction k as [|k IH]; intros s E i Hi; [lia|].
  cbn [memcpy] in E.
  destruct (fits_load m1 s) as [A0 A1]. destruct (fits_load m2 s) as [B0 B1].
  assert (El : load m1 s = load m2 s) by lia.
  assert (Er : memcpy m1 (S s) k = memcpy m2 (S s) k) by lia.
  destruct (Nat.eq_dec i s) as [->|Hne].
  - apply load_inj, El.
  - apply (IH (S s) Er). lia.
Qed.

Lemma crc32c_sw_register m1 m2 src len :
  crc32c_sw m1 src len = crc32c_sw m2 src len ->
  sw_while m1 src len (uint32 (Z.lnot 0))
  = sw_while m2 src len (uint32 (Z.lnot 0)).
Proof.
  unfold crc32c_sw. intros E.
  assert (F0 : fits 32 (uint32 (Z.lnot 0))) by apply fits_uint32.
  rewrite (uint32_lnot (sw_while m1 src len (uint32 (Z.lnot 0)))) in E
    by (apply fits_sw_while, F0).
  rewrite (uint32_lnot (sw_while m2 src len (uint32 (Z.lnot 0)))) in E
    by (apply fits_sw_while, F0).
  lia.
Qed.

(** X5. The software checksum detects every change confined to 4
    consecutive bytes (a burst of at most 32 bits): two buffers of the same
    length that hold the same bytes outside a window of [k <= 4] bytes and
    differ inside it have different checksums. *)
Theorem crc32c_sw_detects_burst (m1 m2 : memory) (src len a k : nat) :
  (k <= 4)%nat ->
  (a + k <= len)%nat ->
  agree m1 m2 src a ->
  agree m1 m2 (src + a + k) (len - (a + k)) ->
  ~ agree m1 m2 (src + a) k ->
  crc32c_sw m1 src len <> crc32c_sw m2 src len.
Proof.
  intros Hk Hlen Hpre Hsuf Hwin E.
  apply crc32c_sw_register in E.
  assert (F0 : fits 32 (uint32 (Z.lnot 0))) by apply fits_uint32.
  replace len with (a + (k + (len - (a + k))))%nat in E by lia.
  rewrite !(sw_while_app _ a), !(sw_while_app _ k) in E.
  rewrite (sw_while_agree m1 m2 a src _ Hpre) in E.
  set (h := sw_while m2 src a (uint32 (Z.lnot 0))) in *.
  assert (Fh : fits 32 h) by (apply fits_sw_while, F0).
  rewrite (sw_while_agree m1 m2 _ (src + a + k) _ Hsuf) in E.
  apply sw_while_inj in E;
    [|apply fits_sw_while, Fh|apply fits_sw_while, Fh].
  rewrite <- !sw_bytes_memcpy in E.
  rewrite !sw_bytes_wide in E by apply fits_memcpy.
  assert (Fv : forall m, fits 32 (memcpy m (src + a) k)).
  { intros m. apply (fits_weaken (Z.of_nat (8 * k))); [lia|].
    apply fits_memcpy. }
  apply sw_for_inj in E;
    [|apply fits_lxor; [lia|exact Fh|apply Fv]
     |apply fits_lxor; [lia|exact Fh|apply Fv]].
  apply lxor_cancel_l in E.
  apply Hwin, memcpy_inj, E.
Qed.

Lemma crc32c_sw_detects_burst_witness :
  crc32c_sw (memory_of eight_bytes) 0 8
  <> crc32c_sw (memory_of eight_bytes') 0 8.
Proof.
  apply (crc32c_sw_detects_burst (memory_of eight_bytes)
           (memory_of eight_bytes') 0 8 7 1).
  - repeat constructor.
  - repeat constructor.
  - intros i Hi. do 7 (destruct i as [|i]; [reflexivity|]). lia.
  - intros i Hi. cbn in Hi. lia.
  - intros H. specialize (H 7%nat ltac:(cbn; lia)). discriminate H.
Defined.

Lemma uint32_lnot_lxor h : fits 32 h -> uint32 (Z.lnot h) = Z.lxor h (Z.ones 32).
Proof.
  intros Hh. unfold uint32. rewrite <- Z.land_ones by lia.
  apply Z.bits_inj'. intros i Hi.
  rewrite Z.land_spec, Z.lxor_spec, Z.lnot_spec by lia.
  rewrite Z.testbit_ones_nonneg by lia.
  destruct (Z.ltb_spec i 32) as [Hlt|Hge].
  - destruct (Z.testbit h i); reflexivity.
  - rewrite (testbit_fits 32 h i Hh Hge). reflexivity.
Qed.

(** X6. A buffer followed by its own software checksum, stored low byte
    first, always has the checksum 0x48674BC7: whatever the buffer, when the
    4 bytes after it hold [crc32c_sw] of it, [crc32c_sw] over the buffer and
    those 4 bytes is that constant. *)
Theorem crc32c_sw_residue (m : memory) (src len : nat) :
  memcpy m (src + len) 4 = crc32c_sw m src len ->
  crc32c_sw m src (len + 4) = 0x48674BC7.
Proof.
  unfold crc32c_sw. intros E.
  assert (F0 : fits 32 (uint32 (Z.lnot 0))) by apply fits_uint32.
  rewrite (sw_while_app m len 4).
  set (h := sw_while m src len (uint32 (Z.lnot 0))) in *.
  assert (Fh : fits 32 h) by (apply fits_sw_while, F0).
  rewrite <- (sw_bytes_memcpy m 4 (src + len) h).
  rewrite E, (uint32_lnot_lxor h Fh).
  rewrite (sw_bytes_wide 4)
    by (apply fits_lxor;
        [lia|exact Fh|unfold fits; rewrite Z.ones_equiv; simpl; lia]).
  rewrite <- Z.lxor_assoc, Z.lxor_nilpotent, Z.lxor_0_l.
  vm_compute. reflexivity.
Qed.

Lemma crc32c_sw_residue_witness :
  memcpy (memory_of framed_vector) (0 + 9) 4
  = crc32c_sw (memory_of framed_vector) 0 9
  /\ crc32c_sw (memory_of framed_vector) 0 (9 + 4) = 0x48674BC7.
Proof.
  assert (H : memcpy (memory_of framed_vector) (0 + 9) 4
              = crc32c_sw (memory_of framed_vector) 0 9)
    by (vm_compute; reflexivity).
  split; [exact H|].
  apply (crc32c_sw_residue (memory_of framed_vector) 0 9 H).
Defined.

(** * Further properties of the dispatcher *)

(** ** The states a process can be in *)

Lemma consistent_process_start p : consistent p process_start.
Proof. reflexivity. Qed.

Lemma consistent_pthread_once p d :
  consistent p d -> consistent p (pthread_once (crc32c_init p) d).
Proof.
  unfold consistent, pthread_once.
  destruct (g_crc32c_once d) eqn:Ho.
  - rewrite Ho. exact (fun H => H).
  - intros ->. cbn [g_crc32c_once g_force_sw g_impl].
    unfold crc32c_init. cbn [process_start g_force_sw truth Z.eqb negb].
    destruct (getenv_CRC32C_FORCE p) as [env|].
    + destruct (String.eqb_spec env "sw") as [->|Hsw].
      * left. split; [reflexivity|right; reflexivity].
      * assert (Hne : Some env <> Some "sw"%string) by congruence.
        destruct (String.eqb env "hw"), (cpu_has_hw_crc p);
          cbn [set_force_sw set_impl g_force_sw g_impl g_crc32c_once truth
               Z.eqb negb andb];
          try (left; split; [reflexivity|(left + right); reflexivity]);
          right; repeat split; assumption.
    + destruct (cpu_has_hw_crc p);
        cbn [set_force_sw set_impl g_force_sw g_impl g_crc32c_once truth
             Z.eqb negb andb].
      * right. repeat split. discriminate.
      * left. split; [reflexivity|left; reflexivity].
Qed.

Lemma consistent_force_software p d :
  consistent p (crc32c_force_software p d).
Proof.
  rewrite crc32c_force_software_state. unfold consistent.
  cbn [g_crc32c_once g_impl g_force_sw].
  left. split; [reflexivity|right; reflexivity].
Qed.

Lemma crc32c_selfcheck_states p d :
  snd (crc32c_selfcheck p d) = d
  \/ snd (crc32c_selfcheck p d) = pthread_once (crc32c_init p) d
  \/ snd (crc32c_selfcheck p d)
     = crc32c_force_software p (pthread_once (crc32c_init p) d).
Proof.
  unfold crc32c_selfcheck.
  destruct (X86_ONLY (target p)); [|left; reflexivity].
  destruct (g_impl (pthread_once (crc32c_init p) d));
    try (right; left; reflexivity).
  match goal with |- context [if truth ?f then _ else _] =>
    destruct (truth f) end; [right; right|right; left]; reflexivity.
Qed.

Lemma crc32c_impl_name_state p d :
  snd (crc32c_impl_name p d) = pthread_once (crc32c_init p) d.
Proof. reflexivity. Qed.

Lemma call_consistent p o d :
  consistent p d -> consistent p (snd (call p o d)).
Proof.
  intros H. destruct o as [| | | |m src len]; cbn [call].
  - pose proof (crc32c_impl_name_state p d) as E.
    destruct (crc32c_impl_name p d) as [s d']. cbn [snd] in *. subst d'.
    apply consistent_pthread_once, H.
  - exact H.
  - apply consistent_force_software.
  - pose proof (crc32c_selfcheck_states p d) as E.
    destruct (crc32c_selfcheck p d) as [z d']. cbn [snd] in *.
    destruct E as [->|[->| ->]].
    + exact H.
    + apply consistent_pthread_once, H.
    + apply consistent_force_software.
  - pose proof (crc32c_state p d m src len) as E.
    destruct (crc32c p d m src len) as [z d']. cbn [snd] in *. subst d'.
    apply consistent_pthread_once, H.
Qed.

Lemma consistent_hardware p d :
  consistent p d ->
  g_impl (pthread_once (crc32c_init p) d) = CRC32C_IMPL_HW ->
  cpu_has_hw_crc p = true
  /\ getenv_CRC32C_FORCE p <> Some "sw"%string
  /\ g_force_sw (pthread_once (crc32c_init p) d) = 0.
Proof.
  intros H Hi. apply consistent_pthread_once in H.
  unfold consistent in H. rewrite pthread_once_done in H.
  destruct H as [[Hs _]|(_ & Hf & Hc & He)]; [congruence|].
  repeat split; assumption.
Qed.

Lemma run_consistent p os : forall d,
  consistent p d ->
  consistent p (snd (run p os d))
  /\ (In (Name "hw"%string) (fst (run p os d)) -> cpu_has_hw_crc p = true).
Proof.
  induction os as [|o os IH]; intros d H; cbn [run].
  - split; [exact H|intros []].
  - pose proof (call_consistent p o d H) as Hc.
    assert (Hn : fst (call p o d) = Name "hw"%string ->
                 cpu_has_hw_crc p = true).
    { destruct o as [| | | |m src len]; cbn [call].
      - unfold crc32c_impl_name.
        destruct (g_impl (pthread_once (crc32c_init p) d)) eqn:Hi;
          cbn [fst]; try discriminate.
        intros _. apply (consistent_hardware p d H Hi).
      - cbn [fst]. discriminate.
      - cbn [fst]. discriminate.
      - destruct (crc32c_selfcheck p d). cbn [fst]. discriminate.
      - destruct (crc32c p d m src len). cbn [fst]. discriminate. }
    destruct (call p o d) as [r d1]. cbn [fst snd] in Hc, Hn.
    destruct (IH d1 Hc) as [Hs Hnames].
    destruct (run p os d1) as [rs d2]. cbn [fst snd] in *.
    split; [exact Hs|].
    intros [E|Hin]; [apply Hn, E|apply Hnames, Hin].
Qed.

(** X7. Dispatch discipline. In every state a process reaches from its
    start by any sequence of public operations, the selector is never the
    AUTO value; the hardware engine is selected only on a CPU the detector
    accepts, with the force flag clear and without a "sw" setting; and the
    name "hw" is never reported when [crc32c_hw_available] is false. *)
Theorem hardware_only_when_available (p : platform) (os : list operation) :
  let d := snd (run p os process_start) in
  g_impl d <> CRC32C_IMPL_AUTO
  /\ (g_impl (pthread_once (crc32c_init p) d) = CRC32C_IMPL_HW ->
      crc32c_hw_available p = true
      /\ getenv_CRC32C_FORCE p <> Some "sw"%string
      /\ g_force_sw (pthread_once (crc32c_init p) d) = 0)
  /\ (In (Name "hw"%string) (fst (run p os process_start)) ->
      crc32c_hw_available p = true).
Proof.
  intros d.
  destruct (run_consistent p os process_start (consistent_process_start p))
    as [Hc Hn].
  fold d in Hc. split; [|split].
  - unfold consistent in Hc. destruct (g_crc32c_once d).
    + destruct Hc as [[E _]|[E _]]; rewrite E; discriminate.
    + rewrite Hc. discriminate.
  - apply consistent_hardware, Hc.
  - exact Hn.
Qed.

Lemma hardware_only_when_available_witness :
  In (Name "hw"%string)
     (fst (run x86_64_build [Checksum (memory_of k_vec) 0 9; Impl_name]
             process_start))
  /\ crc32c_hw_available x86_64_build = true.
Proof.
  assert (H : In (Name "hw"%string)
                 (fst (run x86_64_build
                         [Checksum (memory_of k_vec) 0 9; Impl_name]
                         process_start)))
    by (right; left; reflexivity).
  split; [exact H|].
  apply (hardware_only_when_available x86_64_build
           [Checksum (memory_of k_vec) 0 9; Impl_name]).
  exact H.
Defined.

(** ** After initialization *)

Lemma call_keeps_once p o d :
  g_crc32c_once d = true -> g_crc32c_once (snd (call p o d)) = true.
Proof.
  intros Ho. destruct o as [| | | |m src len]; cbn [call].
  - apply pthread_once_done.
  - exact Ho.
  - rewrite crc32c_force_software_state. reflexivity.
  - pose proof (crc32c_selfcheck_states p d) as E.
    destruct (crc32c_selfcheck p d) as [z d']. cbn [snd] in *.
    destruct E as [->|[->| ->]].
    + exact Ho.
    + apply pthread_once_done.
    + rewrite crc32c_force_software_state. reflexivity.
  - pose proof (crc32c_state p d m src len) as E.
    destruct (crc32c p d m src len) as [z d']. cbn [snd] in *. subst d'.
    apply pthread_once_done.
Qed.

Lemma call_with_env p e o d :
  g_crc32c_once d = true -> call (with_env p e) o d = call p o d.
Proof.
  intros Ho. destruct o as [| | | |m src len]; cbn [call].
  - unfold crc32c_impl_name. rewrite !(pthread_once_again _ d Ho).
    reflexivity.
  - reflexivity.
  - rewrite !crc32c_force_software_state. reflexivity.
  - unfold crc32c_selfcheck. cbn [with_env target cpu].
    rewrite !(pthread_once_again _ d Ho).
    rewrite !crc32c_force_software_state. reflexivity.
  - unfold crc32c. cbn [with_env target cpu].
    rewrite !(pthread_once_again _ d Ho). reflexivity.
Qed.

(** X8. Once the process has initialized, the environment variable is
    never consulted again: whatever value [CRC32C_FORCE] takes later, every
    sequence of public operations returns the same outcomes and ends in the
    same state. *)
Theorem environment_ignored_after_init (p : platform) (e : option string)
  (os : list operation) (d : dispatch) :
  g_crc32c_once d = true ->
  run (with_env p e) os d = run p os d.
Proof.
  revert d. induction os as [|o os IH]; intros d Ho; cbn [run].
  - reflexivity.
  - rewrite (call_with_env p e o d Ho).
    pose proof (call_keeps_once p o d Ho) as Ho'.
    destruct (call p o d) as [r d1]. cbn [snd] in Ho'.
    rewrite (IH d1 Ho'). reflexivity.
Qed.

Lemma environment_ignored_after_init_witness :
  run (with_env x86_64_build (Some "sw"%string))
      [Impl_name; Selfcheck]
      (pthread_once (crc32c_init x86_64_build) process_start)
  = run x86_64_build [Impl_name; Selfcheck]
        (pthread_once (crc32c_init x86_64_build) process_start).
Proof.
  apply (environment_ignored_after_init x86_64_build (Some "sw"%string)
           [Impl_name; Selfcheck]
           (pthread_once (crc32c_init x86_64_build) process_start)).
  reflexivity.
Defined.

Lemma call_reads_only p o d :
  g_crc32c_once d = true -> reads_only o = true -> snd (call p o d) = d.
Proof.
  intros Ho Hr. destruct o as [| | | |m src len]; cbn [call];
    try discriminate Hr.
  - rewrite <- (pthread_once_again (crc32c_init p) d Ho) at 2.
    apply crc32c_impl_name_state.
  - reflexivity.
  - pose proof (crc32c_state p d m src len) as E.
    destruct (crc32c p d m src len) as [z d']. cbn [snd] in *.
    rewrite E. apply pthread_once_again, Ho.
Qed.

(** X9. Once the process has initialized, asking for the name, asking for
    the hardware availability and computing checksums never change the
    dispatch state: after any sequence of such operations the selector, the
    force flag and the guard are what they were, so each checksum is
    computed by the same engine. *)
Theorem reading_operations_keep_state (p : platform) (os : list operation)
  (d : dispatch) :
  g_crc32c_once d = true ->
  forallb reads_only os = true ->
  snd (run p os d) = d.
Proof.
  revert d. induction os as [|o os IH]; intros d Ho Hr; cbn [run].
  - reflexivity.
  - cbn [forallb] in Hr. apply andb_true_iff in Hr. destruct Hr as [Hr Hrs].
    pose proof (call_reads_only p o d Ho Hr) as E.
    destruct (call p o d) as [r d1]. cbn [snd] in E. subst d1.
    specialize (IH d Ho Hrs).
    destruct (run p os d) as [rs d2]. exact IH.
Qed.

Lemma reading_operations_keep_state_witness :
  snd (run x86_64_build
         [Checksum (memory_of k_vec) 0 9; Impl_name; Hw_available]
         (pthread_once (crc32c_init x86_64_build) process_start))
  = pthread_once (crc32c_init x86_64_build) process_start.
Proof.
  apply (reading_operations_keep_state x86_64_build
           [Checksum (memory_of k_vec) 0 9; Impl_name; Hw_available]
           (pthread_once (crc32c_init x86_64_build) process_start));
    reflexivity.
Defined.

(** X10. When the environment asks for software, or the detector reports
    no support, the process computes every checksum with the software
    engine: in every state reached from the start by any sequence of public
    operations, [crc32c] returns [crc32c_sw] on every input and the name is
    "sw", whatever the CPU's instruction computes. *)
Theorem software_only_process (p : platform) (os : list operation)
  (m : memory) (src len : nat) :
  getenv_CRC32C_FORCE p = Some "sw"%string \/ cpu_has_hw_crc p = false ->
  fst (crc32c p (snd (run p os process_start)) m src len)
  = crc32c_sw m src len
  /\ fst (crc32c_impl_name p (snd (run p os process_start))) = "sw"%string.
Proof.
  intros Hsw.
  destruct (run_consistent p os process_start (consistent_process_start p))
    as [Hc _].
  assert (Hn : g_impl (pthread_once (crc32c_init p)
                         (snd (run p os process_start)))
               <> CRC32C_IMPL_HW).
  { intros Hi. destruct (consistent_hardware p _ Hc Hi) as (Ha & He & _).
    destruct Hsw as [Hsw|Hsw]; congruence. }
  split.
  - apply crc32c_value_sw. intros Hi. contradiction.
  - unfold crc32c_impl_name. cbn [fst].
    destruct (g_impl (pthread_once (crc32c_init p)
                        (snd (run p os process_start))));
      [reflexivity|contradiction|reflexivity].
Qed.

Lemma software_only_process_witness :
  fst (crc32c (with_env i386_build (Some "sw"%string))
         (snd (run (with_env i386_build (Some "sw"%string))
                 [Selfcheck] process_start))
         (memory_of k_vec) 0 9)
  = crc32c_sw (memory_of k_vec) 0 9.
Proof.
  apply (software_only_process (with_env i386_build (Some "sw"%string))
           [Selfcheck] (memory_of k_vec) 0 9).
  left. reflexivity.
Defined.

(** ** What the self-check establishes *)

(** X11. On every build other than 32-bit x86, a CPU whose instruction
    works as documented passes the self-check in every dispatch state: the
    status is 0 and the process is left as initialization leaves it, never
    forced to software. *)
Theorem selfcheck_passes_on_correct_cpu (p : platform) (d : dispatch) :
  follows_manual (cpu p) ->
  target p <> I386 ->
  crc32c_selfcheck p d
  = (0, if X86_ONLY (target p) then pthread_once (crc32c_init p) d else d).
Proof.
  intros manual Ht.
  pose proof (crc32c_selfcheck_passes p d manual Ht) as E0.
  destruct (X86_ONLY (target p)) eqn:Hx;
    [|unfold crc32c_selfcheck; rewrite Hx; reflexivity].
  destruct (g_impl (pthread_once (crc32c_init p) d)) eqn:Hi;
    try (unfold crc32c_selfcheck; rewrite Hx, Hi; reflexivity).
  rewrite (crc32c_selfcheck_hardware p d Hx Hi) in *.
  destruct (truth (selfcheck_failures (target p) (cpu p)));
    [discriminate E0|reflexivity].
Qed.

Lemma selfcheck_passes_on_correct_cpu_witness :
  crc32c_selfcheck x86_64_build process_start
  = (0, pthread_once (crc32c_init x86_64_build) process_start).
Proof.
  apply (selfcheck_passes_on_correct_cpu x86_64_build process_start).
  - intros w dest src. reflexivity.
  - discriminate.
Defined.

Lemma crc32c_selfcheck_off_hardware p d :
  off_hardware d -> crc32c_selfcheck p d = (0, d).
Proof.
  intros [Ho Hi]. unfold crc32c_selfcheck.
  rewrite (pthread_once_again _ d Ho).
  destruct (X86_ONLY (target p)); [|reflexivity].
  destruct (g_impl d); [reflexivity|contradiction|reflexivity].
Qed.

Lemma crc32c_off_hardware p d m src len :
  off_hardware d -> crc32c p d m src len = (crc32c_sw m src len, d).
Proof.
  intros [Ho Hi]. unfold crc32c. rewrite (pthread_once_again _ d Ho).
  destruct (g_impl d); [reflexivity|contradiction|reflexivity].
Qed.

Lemma off_hardware_force_software p d :
  off_hardware (crc32c_force_software p d).
Proof.
  rewrite crc32c_force_software_state. split; [reflexivity|discriminate].
Qed.

Lemma call_off_hardware p o d :
  off_hardware d -> off_hardware (snd (call p o d)).
Proof.
  intros H. destruct o as [| | | |m src len]; cbn [call].
  - unfold crc32c_impl_name. cbn [snd].
    rewrite (pthread_once_again _ d (proj1 H)). exact H.
  - exact H.
  - apply off_hardware_force_software.
  - rewrite (crc32c_selfcheck_off_hardware p d H). exact H.
  - rewrite (crc32c_off_hardware p d m src len H). exact H.
Qed.

Lemma run_off_hardware p os : forall d,
  off_hardware d -> off_hardware (snd (run p os d)).
Proof.
  induction os as [|o os IH]; intros d H; cbn [run].
  - exact H.
  - pose proof (call_off_hardware p o d H) as Hc.
    destruct (call p o d) as [r d1]. cbn [snd] in Hc.
    specialize (IH d1 Hc).
    destruct (run p os d1) as [rs d2]. exact IH.
Qed.

(** After a self-check, a selector that is still Hardware means the
    engines agreed on everything the self-check compares. *)
Lemma selfcheck_leaves_agreement p d :
  g_impl (pthread_once (crc32c_init p) (snd (crc32c_selfcheck p d)))
  = CRC32C_IMPL_HW ->
  ~ engines_disagree p.
Proof.
  intros Hhw.
  destruct (X86_ONLY (target p)) eqn:Hx; [|apply engines_agree_off_x86, Hx].
  pose proof (pthread_once_done (crc32c_init p) d) as Ho.
  destruct (g_impl (pthread_once (crc32c_init p) d)) eqn:Hi.
  - unfold crc32c_selfcheck in Hhw. rewrite Hx, Hi in Hhw. cbn [snd] in Hhw.
    rewrite (pthread_once_again _ _ Ho) in Hhw. congruence.
  - rewrite (crc32c_selfcheck_hardware p d Hx Hi) in Hhw.
    destruct (truth (selfcheck_failures (target p) (cpu p))) eqn:Ef.
    + cbn [snd] in Hhw. rewrite crc32c_force_software_state in Hhw.
      cbn in Hhw. discriminate Hhw.
    + intros Hd. apply (selfcheck_failures_disagree p Hx) in Hd. congruence.
  - unfold crc32c_selfcheck in Hhw. rewrite Hx, Hi in Hhw. cbn [snd] in Hhw.
    rewrite (pthread_once_again _ _ Ho) in Hhw. congruence.
Qed.

Lemma tested_slices_fit off len :
  In off offsets -> In len lengths -> (off + len <= 512)%nat.
Proof.
  intros Hoff Hlen.
  assert (H : forallb (fun off => forallb (fun len => off + len <=? 512)%nat
                                          lengths) offsets = true)
    by reflexivity.
  rewrite forallb_forall in H. specialize (H off Hoff).
  rewrite forallb_forall in H. specialize (H len Hlen).
  apply Nat.leb_le, H.
Qed.

(** X12. Whatever the CPU's instruction computes and whatever the build,
    after a self-check the dispatcher is right on everything the self-check
    compared: [crc32c] returns 0xE3069283 on "123456789" and the software
    checksum on every slice of the pattern at a listed offset and length. *)
Theorem dispatcher_right_after_selfcheck (p : platform) (d : dispatch)
  (off len : nat) :
  In off offsets -> In len lengths ->
  let d1 := snd (crc32c_selfcheck p d) in
  fst (crc32c p d1 (memory_of k_vec) 0 9) = 0xE3069283
  /\ fst (crc32c p d1 (memory_of pattern) off len)
     = crc32c_sw (memory_of pattern) off len.
Proof.
  intros Hoff Hlen d1. split.
  - rewrite <- known_vector_sw. apply crc32c_value_sw. intros Hhw.
    pose proof (selfcheck_leaves_agreement p d Hhw) as Hagree.
    destruct (Z.eq_dec (crc32c_hw p (memory_of k_vec) 0 9)
                       (crc32c_sw (memory_of k_vec) 0 9)) as [E|E];
      [exact E|].
    exfalso. apply Hagree. left. exact E.
  - apply crc32c_value_sw. intros Hhw.
    pose proof (selfcheck_leaves_agreement p d Hhw) as Hagree.
    destruct (Z.eq_dec (crc32c_hw p (memory_of pattern) off len)
                       (crc32c_sw (memory_of pattern) off len)) as [E|E];
      [exact E|].
    exfalso. apply Hagree. right. exists off, len.
    split; [exact Hoff|]. split; [exact Hlen|].
    split; [apply tested_slices_fit; assumption|exact E].
Qed.

Lemma dispatcher_right_after_selfcheck_witness :
  fst (crc32c i386_build (snd (crc32c_selfcheck i386_build process_start))
         (memory_of k_vec) 0 9) = 0xE3069283.
Proof.
  apply (dispatcher_right_after_selfcheck i386_build process_start 0 8).
  - left. reflexivity.
  - do 6 right. left. reflexivity.
Defined.

Lemma i386_engines_disagree p :
  target p = I386 -> follows_manual (cpu p) -> engines_disagree p.
Proof.
  intros Ht manual. left. unfold crc32c_hw. rewrite Ht. cbn [X86_ONLY].
  rewrite (crc32c_hw_body_i386 (cpu p) (memory_of k_vec) 0 9 manual).
  intros H. vm_compute in H. discriminate H.
Qed.

(** X13. With a CPU whose instruction works as documented, on every build
    (the 32-bit x86 one included), once the self-check has run every later
    checksum is the software checksum: after it and any further sequence of
    public operations, [crc32c] returns [crc32c_sw] on every input. *)
Theorem checksums_right_after_selfcheck (p : platform) (d : dispatch)
  (os : list operation) (m : memory) (src len : nat) :
  follows_manual (cpu p) ->
  fst (crc32c p (snd (run p os (snd (crc32c_selfcheck p d)))) m src len)
  = crc32c_sw m src len.
Proof.
  intros manual.
  destruct (target p) eqn:Ht.
  - apply crc32c_value_sw. intros _.
    apply crc32c_hw_sw_except_i386; [exact manual|congruence].
  - assert (H1 : off_hardware (snd (crc32c_selfcheck p d))).
    { assert (Hx : X86_ONLY (target p) = true) by (rewrite Ht; reflexivity).
      pose proof (pthread_once_done (crc32c_init p) d) as Ho.
      destruct (g_impl (pthread_once (crc32c_init p) d)) eqn:Hi.
      - unfold crc32c_selfcheck. rewrite Hx, Hi. cbn [snd].
        split; [exact Ho|congruence].
      - rewrite (crc32c_selfcheck_hardware p d Hx Hi).
        pose proof (i386_engines_disagree p Ht manual) as Hd.
        apply (selfcheck_failures_disagree p Hx) in Hd. rewrite Hd.
        cbn [snd]. apply off_hardware_force_software.
      - unfold crc32c_selfcheck. rewrite Hx, Hi. cbn [snd].
        split; [exact Ho|congruence]. }
    rewrite (crc32c_off_hardware p _ m src len
               (run_off_hardware p os _ H1)).
    reflexivity.
  - apply crc32c_value_sw. intros _.
    apply crc32c_hw_sw_except_i386; [exact manual|congruence].
Qed.

Lemma checksums_right_after_selfcheck_witness :
  fst (crc32c i386_build
         (snd (run i386_build [Impl_name]
                 (snd (crc32c_selfcheck i386_build process_start))))
         (memory_of k_vec) 0 9)
  = crc32c_sw (memory_of k_vec) 0 9.
Proof.
  apply (checksums_right_after_selfcheck i386_build process_start
           [Impl_name] (memory_of k_vec) 0 9).
  intros w dest src. reflexivity.
Defined.

(** X14. The self-check reports a failure at most once: after a
    self-check that returned a non-zero status, and any further sequence of
    public operations, a self-check returns 0 and changes nothing, since the
    process is then on the software engine. *)
Theorem selfcheck_fails_once (p : platform) (d : dispatch)
  (os : list operation) :
  fst (crc32c_selfcheck p d) <> 0 ->
  let d' := snd (run p os (snd (crc32c_selfcheck p d))) in
  crc32c_selfcheck p d' = (0, d').
Proof.
  intros Hf d'. apply crc32c_selfcheck_off_hardware.
  apply run_off_hardware.
  rewrite (crc32c_selfcheck_failure_forces p d Hf).
  apply off_hardware_force_software.
Qed.

Lemma selfcheck_fails_once_witness :
  fst (crc32c_selfcheck i386_build process_start) <> 0
  /\ fst (crc32c_selfcheck i386_build
            (snd (run i386_build [Impl_name]
                    (snd (crc32c_selfcheck i386_build process_start)))))
     = 0.
Proof.
  assert (Hf : fst (crc32c_selfcheck i386_build process_start) <> 0).
  { intros H. vm_compute in H. discriminate H. }
  split; [exact Hf|].
  rewrite (selfcheck_fails_once i386_build process_start [Impl_name] Hf).
  reflexivity.
Defined.

(** * The test program *)

Lemma MaybeReportMismatch_same v failures :
  Test.MaybeReportMismatch v v failures = failures.
Proof. unfold Test.MaybeReportMismatch. rewrite Z.eqb_refl. reflexivity. Qed.

Lemma MaybeReportMismatch_mono got want failures :
  failures <= Test.MaybeReportMismatch got want failures.
Proof. unfold Test.MaybeReportMismatch. destruct (got =? want); lia. Qed.

Lemma fold_left_fst_kept {A : Type}
  (step : Z * dispatch -> A -> Z * dispatch) :
  (forall st a, fst (step st a) = fst st) ->
  forall l st, fst (fold_left step l st) = fst st.
Proof.
  intros H. induction l as [|a l IH]; intros st; cbn [fold_left].
  - reflexivity.
  - rewrite IH. apply H.
Qed.

Lemma fold_left_fst_mono {A : Type}
  (step : Z * dispatch -> A -> Z * dispatch) :
  (forall st a, fst st <= fst (step st a)) ->
  forall l st, fst st <= fst (fold_left step l st).
Proof.
  intros H. induction l as [|a l IH]; intros st; cbn [fold_left].
  - lia.
  - specialize (H st a). specialize (IH (step st a)). lia.
Qed.

Section Test_on_a_platform.

Variable p : platform.

Lemma compare_engines_mono m src len st :
  fst st <= fst (Test.compare_engines p m src len st).
Proof.
  unfold Test.compare_engines. destruct st as [failures d].
  destruct (crc32c p d m src len) as [disp d1]. cbn [fst].
  pose proof (MaybeReportMismatch_mono disp (crc32c_sw m src len) failures)
    as H1.
  destruct (crc32c_hw_available p); [|exact H1].
  pose proof (MaybeReportMismatch_mono (crc32c_hw p m src len)
                (crc32c_sw m src len)
                (Test.MaybeReportMismatch disp (crc32c_sw m src len) failures))
    as H2.
  lia.
Qed.

Lemma coverage_mono st :
  fst st <=
  fst (fold_left
         (fun st off =>
            fold_left (fun st len => Test.coverage_step p off len st)
                      Test.lengths st)
         Test.offsets st).
Proof.
  apply (fold_left_fst_mono
           (fun st off =>
              fold_left (fun st len => Test.coverage_step p off len st)
                        Test.lengths st)).
  intros st' off.
  apply (fold_left_fst_mono (fun st len => Test.coverage_step p off len st)).
  intros st'' len. unfold Test.coverage_step.
  destruct (List.length Test.pattern <? off + len)%nat; [lia|].
  apply compare_engines_mono.
Qed.

Lemma random_mono rnd st :
  fst st <=
  fst (fold_left (fun st i => Test.random_step p (rnd i) st) (seq 0 100) st).
Proof.
  apply (fold_left_fst_mono (fun st i => Test.random_step p (rnd i) st)).
  intros st' i. apply compare_engines_mono.
Qed.

Hypothesis manual : follows_manual (cpu p).

Section Correct_build.

Hypothesis not_i386 : target p <> I386.

Lemma crc32c_correct_build d m src len :
  fst (crc32c p d m src len) = crc32c_sw m src len.
Proof.
  apply crc32c_value_sw. intros _.
  apply crc32c_hw_sw_except_i386; assumption.
Qed.

Lemma compare_engines_pass m src len st :
  fst (Test.compare_engines p m src len st) = fst st.
Proof.
  unfold Test.compare_engines. destruct st as [failures d].
  pose proof (crc32c_correct_build d m src len) as E.
  destruct (crc32c p d m src len) as [disp d1]. cbn [fst] in *. subst disp.
  rewrite MaybeReportMismatch_same.
  destruct (crc32c_hw_available p); [|reflexivity].
  rewrite (crc32c_hw_sw_except_i386 p m src len manual not_i386).
  apply MaybeReportMismatch_same.
Qed.

Lemma coverage_pass st :
  fst (fold_left
         (fun st off =>
            fold_left (fun st len => Test.coverage_step p off len st)
                      Test.lengths st)
         Test.offsets st)
  = fst st.
Proof.
  apply (fold_left_fst_kept
           (fun st off =>
              fold_left (fun st len => Test.coverage_step p off len st)
                        Test.lengths st)).
  intros st' off.
  apply (fold_left_fst_kept (fun st len => Test.coverage_step p off len st)).
  intros st'' len. unfold Test.coverage_step.
  destruct (List.length Test.pattern <? off + len)%nat; [reflexivity|].
  apply compare_engines_pass.
Qed.

Lemma random_pass rnd st :
  fst (fold_left (fun st i => Test.random_step p (rnd i) st) (seq 0 100) st)
  = fst st.
Proof.
  apply (fold_left_fst_kept (fun st i => Test.random_step p (rnd i) st)).
  intros st' i. apply compare_engines_pass.
Qed.

Lemma main_passes rnd : Test.main p rnd = 0.
Proof.
  unfold Test.main. change (strlen k_vec) with 9%nat.
  rewrite known_vector_sw.
  change 0xe3069283 with 0xE3069283.
  rewrite MaybeReportMismatch_same.
  pose proof (crc32c_correct_build process_start (memory_of k_vec) 0 9) as E.
  rewrite known_vector_sw in E.
  destruct (crc32c p process_start (memory_of k_vec) 0 9) as [vd d1].
  cbn [fst] in E. subst vd.
  rewrite MaybeReportMismatch_same.
  assert (Ehw : (if crc32c_hw_available p
                 then Test.MaybeReportMismatch
                        (crc32c_hw p (memory_of k_vec) 0 9) 0xE3069283 0
                 else 0) = 0).
  { destruct (crc32c_hw_available p); [|reflexivity].
    rewrite (crc32c_hw_sw_except_i386 p _ 0 9 manual not_i386).
    rewrite known_vector_sw. apply MaybeReportMismatch_same. }
  rewrite Ehw.
  pose proof (coverage_pass (0, d1)) as Ec.
  destruct (fold_left _ Test.offsets (0, d1)) as [f2 d2].
  cbn [fst] in Ec. subst f2.
  pose proof (random_pass rnd (0, d2)) as Er.
  destruct (fold_left _ (seq 0 100) (0, d2)) as [f3 d3].
  cbn [fst] in Er. subst f3.
  pose proof (crc32c_selfcheck_passes p d3 manual not_i386) as Es.
  destruct (crc32c_selfcheck p d3) as [status d4].
  cbn [fst] in Es. subst status. reflexivity.
Qed.

End Correct_build.

Section I386_build.

Hypothesis i386 : target p = I386.
Hypothesis sse : sse4_2 (cpu p) = true.

Lemma main_fails rnd : Test.main p rnd = 1.
Proof.
  unfold Test.main. change (strlen k_vec) with 9%nat.
  destruct (crc32c p process_start (memory_of k_vec) 0 9) as [vd d1].
  set (f1 := Test.MaybeReportMismatch vd _ _).
  assert (H1 : 0 <= f1).
  { unfold f1.
    eapply Z.le_trans; [|apply MaybeReportMismatch_mono].
    apply MaybeReportMismatch_mono. }
  assert (Ha : crc32c_hw_available p = true).
  { unfold crc32c_hw_available, cpu_has_hw_crc. rewrite i386. exact sse. }
  rewrite Ha.
  assert (Ehw : (crc32c_hw p (memory_of k_vec) 0 9
                 =? crc32c_sw (memory_of k_vec) 0 9) = false).
  { apply Z.eqb_neq. unfold crc32c_hw. rewrite i386. cbn [X86_ONLY].
    rewrite (crc32c_hw_body_i386 (cpu p) (memory_of k_vec) 0 9 manual).
    intros H. vm_compute in H. discriminate H. }
  unfold Test.MaybeReportMismatch at 1. rewrite Ehw.
  pose proof (coverage_mono (f1 + 1, d1)) as Hc.
  destruct (fold_left _ Test.offsets (f1 + 1, d1)) as [f2 d2].
  cbn [fst] in Hc.
  pose proof (random_mono rnd (f2, d2)) as Hr.
  destruct (fold_left _ (seq 0 100) (f2, d2)) as [f3 d3].
  cbn [fst] in Hr.
  destruct (crc32c_selfcheck p d3) as [status d4].
  assert (Hf : (if negb (status =? 0) then f3 + 1 else f3) <> 0)
    by (destruct (negb (status =? 0)); lia).
  apply Z.eqb_neq in Hf. rewrite Hf. reflexivity.
Qed.

End I386_build.

End Test_on_a_platform.

(** X15. The test program exits with status 0 on every build other than
    32-bit x86 when the CPU's instruction works as documented: whatever the
    environment setting and whatever buffers the random engine draws, no
    comparison of the known vector, of the coverage loops or of the random
    loop fails and the self-check passes. *)
Theorem test_program_passes (p : platform) (rnd : nat -> list byte) :
  follows_manual (cpu p) ->
  target p <> I386 ->
  Test.main p rnd = 0.
Proof. intros manual Ht. apply main_passes; assumption. Qed.

Lemma test_program_passes_witness :
  Test.main x86_64_build (fun _ => eight_bytes) = 0.
Proof.
  apply (test_program_passes x86_64_build (fun _ => eight_bytes)).
  - intros w dest src. reflexivity.
  - discriminate.
Defined.

(** X16. On the 32-bit x86 build, with a CPU that reports SSE4.2 and whose
    instruction works as documented, the test program exits with status 1,
    whatever the environment setting and the random buffers: its comparison
    of [crc32c_hw] with [crc32c_sw] on "123456789" fails. *)
Theorem test_program_fails_on_i386 (p : platform) (rnd : nat -> list byte) :
  follows_manual (cpu p) ->
  target p = I386 ->
  sse4_2 (cpu p) = true ->
  Test.main p rnd = 1.
Proof. intros manual Ht Hs. apply main_fails; assumption. Qed.

Lemma test_program_fails_on_i386_witness :
  Test.main i386_build (fun _ => eight_bytes) = 1.
Proof.
  apply (test_program_fails_on_i386 i386_build (fun _ => eight_bytes)).
  - intros w dest src. reflexivity.
  - reflexivity.
  - reflexivity.
Defined.
